(** * dr_robot: the aggregation engine (src/aggregation.py)

    A shallow embedding of class [Aggregation]: the SQLite table [data] and
    the statements run against it, the text extractor and its two regular
    expressions, the header fetcher, the index builder and the file export.

    Conventions.
    - A nullable Python/SQL value is an [option]; [None] is Python's [None]
      and SQL's [NULL].
    - A table is the list of its rows in rowid order. No statement has an
      ORDER BY: where SQLite can go through [data] by the table or by the
      index of [UNIQUE(ip, hostname)], the choice is a parameter
      ([Store.planner]).
    - Library calls whose code is outside the repository (DNS resolution,
      HTTP requests, [glob], [json.dumps], [join_abs]) are Section variables.
    - What the program prints or logs is kept as a list of structured
      events, oldest first. *)

From Stdlib Require Import String Ascii List Bool Arith Lia.
From stdpp Require Import base option list sorting strings gmap.

Local Open Scope string_scope.
Local Open Scope list_scope.

(** ** Python helpers *)

Module Py.

(** [s.replace('.', '_')] *)
Fixpoint replace_dot (s : string) : string :=
  match s with
  | EmptyString => EmptyString
  | String c t =>
      String (if Ascii.eqb c "."%char then "_"%char else c) (replace_dot t)
  end.

(** [str(x)] / [format(x)] of a nullable string. *)
Definition str_of (x : option string) : string :=
  match x with
  | Some s => s
  | None => "None"
  end.

(** Truth value of a nullable string: [None] and [''] are false. *)
Definition truthy (x : option string) : bool :=
  match x with
  | Some EmptyString => false
  | Some _ => true
  | None => false
  end.

(** [dict(pairs)]: keys in order of first insertion, the last value wins. *)
Fixpoint dict_set {V} (k : string) (v : V) (d : list (string * V))
  : list (string * V) :=
  match d with
  | [] => [(k, v)]
  | (k', v') :: d' =>
      if String.eqb k k' then (k', v) :: d' else (k', v') :: dict_set k v d'
  end.

Definition dict {V} (pairs : list (string * V)) : list (string * V) :=
  fold_left (fun d kv => dict_set (fst kv) (snd kv) d) pairs [].

(** What a call does: it returns a value or raises. *)
Inductive outcome (A E : Type) : Type :=
| Returned (v : A)
| Raised (e : E).
Arguments Returned {A E} v.
Arguments Raised {A E} e.

Definition is_raised {A E} (o : outcome A E) : bool :=
  match o with
  | Returned _ => false
  | Raised _ => true
  end.

End Py.

(** ** The store: tables [domains] and [data] *)

Module Store.

(** What [socket.gethostbyaddr] returns: (hostname, aliaslist, ipaddrlist). *)
Record hostent := HostEnt {
  he_name : string;
  he_aliases : list string;
  he_addrs : list string
}.

(** The value bound to [host] in the extractor: the matched text, or the
    triple of [gethostbyaddr]. *)
Inductive host_val :=
| HostStr (s : string)
| HostTuple (h : hostent).

(** An observation [(host, ip)] as the extractor emits it. *)
Definition pair : Type := option host_val * option string.

(** A row of [data]:
    [domainid INTEGER PRIMARY KEY, ip VARCHAR, hostname VARCHAR,
     http_headers TEXT, https_headers TEXT, domain VARCHAR]. *)
Record row := Row {
  domainid : nat;
  ip : option string;
  hostname : option string;
  http_headers : option string;
  https_headers : option string;
  domain : option string
}.

#[global] Instance row_eq_dec : EqDecision row.
Proof. solve_decision. Defined.

Record db := Db {
  domains : list string;
  data : list row
}.

Inductive sql_error :=
| IntegrityError      (* UNIQUE or FOREIGN KEY constraint failed *)
| InterfaceError.     (* a parameter of a type SQLite cannot bind *)

(** SQL [a = b]: true only when both sides are non-null and equal. *)
Definition sql_eq (a b : option string) : bool :=
  match a, b with
  | Some x, Some y => String.eqb x y
  | _, _ => false
  end.

(** [UNIQUE(ip, hostname)]: a new row conflicts with an existing row when
    both columns are equal in the sense of SQL, so a NULL in either column
    never conflicts (SQLite counts NULLs as distinct in a UNIQUE index).
    The constraint is on the whole table, whatever the domain. *)
Definition unique_conflict (i h : option string) (r : row) : bool :=
  sql_eq i (ip r) && sql_eq h (hostname r).

Definition violates_unique (i h : option string) (rows : list row) : bool :=
  existsb (unique_conflict i h) rows.

(** [FOREIGN KEY(domain) REFERENCES domains(domain)] with
    [PRAGMA foreign_keys=1]. *)
Definition fk_ok (dom : string) (d : db) : bool :=
  existsb (String.eqb dom) (domains d).

(** The rowid a new row receives: one more than the largest in the table. *)
Definition next_rowid (rows : list row) : nat :=
  S (fold_right Nat.max 0 (map domainid rows)).

(** [INSERT INTO data (ip, hostname, http_headers, https_headers, domain)
     VALUES (?, ?, NULL, NULL, ?)] with parameters [(ip, host, domain)]. *)
Definition insert_data (i : option string) (h : option host_val)
    (dom : string) (d : db) : db + sql_error :=
  match h with
  | Some (HostTuple _) => inr InterfaceError
  | _ =>
      let hn := match h with Some (HostStr s) => Some s | _ => None end in
      if violates_unique i hn (data d) then inr IntegrityError
      else if negb (fk_ok dom d) then inr IntegrityError
      else
        let r := Row (next_rowid (data d)) i hn None None (Some dom) in
        inl (Db (domains d) (data d ++ [r]))
  end.

(** [INSERT OR IGNORE INTO domains(domain) VALUES (...)] *)
Definition register_domain (dom : string) (d : db) : db :=
  if existsb (String.eqb dom) (domains d) then d
  else Db (domains d ++ [dom]) (data d).

(** What [_build_db] prints. *)
Inductive build_msg :=
| IssueWith (i : option string) (h : option host_val) (dom : string).

(** The [for host, ip in ips] loop of [_build_db], inside its [try]: the
    first statement that raises ends the loop, and the handler gets the
    loop variables of that iteration. *)
Fixpoint insert_loop (dom : string) (ips : list pair) (d : db)
  : db * option pair :=
  match ips with
  | [] => (d, None)
  | (host, i) :: rest =>
      match insert_data i host dom d with
      | inl d' => insert_loop dom rest d'
      | inr _ => (d, Some (host, i))
      end
  end.

(** [_build_db(ips, cursor)]: BEGIN TRANSACTION, the loop under
    [try ... except BaseException: print(...)], COMMIT. A failed INSERT
    leaves the transaction open with the earlier rows in it, and COMMIT
    keeps them. *)
Definition _build_db (self_domain : string) (ips : list pair) (d : db)
  : db * list build_msg :=
  let dom := Py.replace_dot self_domain in
  match insert_loop dom ips d with
  | (d', None) => (d', [])
  | (d', Some (host, i)) => (d', [IssueWith i host dom])
  end.

(** Rows of a domain: [WHERE domain = '...']. *)
Definition in_domain (dom : string) (r : row) : bool :=
  sql_eq (domain r) (Some dom).

(** Number of rows of the table holding the pair [(i, h)] (Python equality:
    [None] equals [None]). *)
Definition same_pair (i h : option string) (r : row) : bool :=
  bool_decide (ip r = i) && bool_decide (hostname r = h).

Definition count_pair (i h : option string) (d : db) : nat :=
  length (filter (fun r => same_pair i h r = true) (data d)).

(** *** The order in which a statement meets the rows

    No statement of the program has an ORDER BY, so the order of the rows
    of a SELECT, and the row an [UPDATE ... LIMIT 1] changes, are those
    of the way SQLite goes through [data]. There are two: the table
    itself, in rowid order, and the index SQLite keeps for
    [UNIQUE(ip, hostname)], in the order of (ip, hostname, rowid). The
    query planner takes one of them for each statement. *)
Inductive plan :=
| TableScan      (* SCAN data *)
| IndexScan.     (* ... USING INDEX sqlite_autoindex_data_1 *)

(** The statements for which the index is a candidate: the result is
    DISTINCT on its columns, or the WHERE clause has a condition on [ip]
    or [hostname]. *)
Inductive statement :=
| SelectIps          (* SELECT ip ... WHERE ip IS NOT NULL ..., headers *)
| ExportIps          (* SELECT DISTINCT ip ..., dump_to_file *)
| ExportHostnames    (* SELECT DISTINCT hostname ..., dump_to_file *)
| ExportHeaders      (* SELECT DISTINCT ip, hostname, http_headers,
                        https_headers ..., dump_to_file *)
| UpdateByIp         (* UPDATE ... WHERE ip = ? AND domain = ? LIMIT 1 *)
| UpdateByHostname   (* UPDATE ... WHERE hostname = ? AND domain = ?
                        LIMIT 1 *)
| IndexIps.          (* SELECT DISTINCT ip, hostname ..., _gen_output *)

(** The plan of every statement. *)
Definition planner : Type := statement -> plan.

(** The order of an index on a text column: NULL comes before every
    text, and texts are compared character by character (the BINARY
    collation), a proper prefix before the longer text. *)
Definition null_first (a b : option string) : comparison :=
  match a, b with
  | None, None => Eq
  | None, Some _ => Lt
  | Some _, None => Gt
  | Some x, Some y => String.compare x y
  end.

(** [index_leb r1 r2]: the entry of [r1] in the index of
    [UNIQUE(ip, hostname)] is not behind the entry of [r2], as far as the
    two columns tell. *)
Definition index_leb (r1 r2 : row) : bool :=
  match null_first (ip r1) (ip r2) with
  | Lt => true
  | Gt => false
  | Eq =>
      match null_first (hostname r1) (hostname r2) with
      | Gt => false
      | _ => true
      end
  end.

(** The rows with their places in the table. *)
Fixpoint number_from (i : nat) (rows : list row) : list (nat * row) :=
  match rows with
  | [] => []
  | r :: t => (i, r) :: number_from (S i) t
  end.

Definition numbered (rows : list row) : list (nat * row) :=
  number_from 0 rows.

(** The index, built by insertion: an entry goes in front of the first
    entry that is not before it, so rows with the same ip and hostname
    (possible with NULLs only) stay in rowid order. *)
Fixpoint index_insert (x : nat * row) (l : list (nat * row))
  : list (nat * row) :=
  match l with
  | [] => [x]
  | y :: t =>
      if index_leb (snd x) (snd y) then x :: y :: t
      else y :: index_insert x t
  end.

Definition index_order (l : list (nat * row)) : list (nat * row) :=
  fold_right index_insert [] l.

(** The rows of the table, each with its place, in the order in which a
    statement run by plan [p] meets them. *)
Definition visit (p : plan) (rows : list row) : list (nat * row) :=
  match p with
  | TableScan => numbered rows
  | IndexScan => index_order (numbered rows)
  end.

Definition scan (p : plan) (rows : list row) : list row :=
  map snd (visit p rows).

(** [SELECT DISTINCT]: a row of the result is passed on the first time it
    comes up; [seen] are the rows passed on so far. *)
Fixpoint distinct_from {A} `{EqDecision A} (seen l : list A) : list A :=
  match l with
  | [] => []
  | x :: t =>
      if decide (x ∈ seen) then distinct_from seen t
      else x :: distinct_from (x :: seen) t
  end.

Definition distinct {A} `{EqDecision A} (l : list A) : list A :=
  distinct_from [] l.

End Store.

(** ** Regular expressions, as Python's backtracking matcher runs them *)

Module Regex.

(** The fragment of [re] syntax the two patterns use. Text is a list of
    characters with code points 0..255; the classes below are those of
    [re] on such text. *)
Inductive regex :=
| Class (p : ascii -> bool)      (* one character of a class *)
| Seq (r1 r2 : regex)            (* r1 r2 *)
| Alt (r1 r2 : regex)            (* r1|r2, r1 is tried first *)
| Opt (r : regex)                (* r?  greedy *)
| Upto (n : nat) (r : regex)     (* r{0,n} greedy *)
| Times (n : nat) (r : regex)    (* r{n} *)
| LazyStar (r : regex).          (* r*? *)

Definition text := list ascii.

(** Greedy [r{0,n}]: one more [r] is tried before stopping. *)
Fixpoint upto (m : text -> list text) (n : nat) (s : text) : list text :=
  match n with
  | 0 => [s]
  | S k => flat_map (upto m k) (m s) ++ [s]
  end.

(** [r{n}] *)
Fixpoint times (m : text -> list text) (n : nat) (s : text) : list text :=
  match n with
  | 0 => [s]
  | S k => flat_map (times m k) (m s)
  end.

(** Lazy [r*?]: stopping is tried before one more [r]. [fuel] bounds the
    number of iterations. *)
Fixpoint lazy_star (m : text -> list text) (fuel : nat) (s : text)
  : list text :=
  match fuel with
  | 0 => [s]
  | S k => s :: flat_map (lazy_star m k) (m s)
  end.

(** [matches r s]: the remainders of [s] after every way [r] matches at
    the start of [s], in the order the backtracking matcher finds them.
    A lazy star gets one unit of fuel per character of the text: each
    iteration of a body that consumes a character uses one. *)
Fixpoint matches (r : regex) (s : text) : list text :=
  match r with
  | Class p =>
      match s with
      | c :: t => if p c then [t] else []
      | [] => []
      end
  | Seq r1 r2 => flat_map (matches r2) (matches r1 s)
  | Alt r1 r2 => matches r1 s ++ matches r2 s
  | Opt r1 => matches r1 s ++ [s]
  | Upto n r1 => upto (matches r1) n s
  | Times n r1 => times (matches r1) n s
  | LazyStar r1 => lazy_star (matches r1) (length s) s
  end.

(** [pattern.match(line)]: the first match at the start of the line;
    [.group()] is the text it consumed. *)
Definition re_match (r : regex) (line : string) : option string :=
  let s := list_ascii_of_string line in
  match matches r s with
  | rest :: _ =>
      Some (string_of_list_ascii (take (length s - length rest) s))
  | [] => None
  end.

(** [pattern.fullmatch(s)]: some way of matching consumes all of [s]. *)
Definition fullmatch (r : regex) (s : text) : bool :=
  existsb (fun rest => match rest with [] => true | _ => false end)
          (matches r s).

(** Character classes. *)
Definition in_range (lo hi : ascii) (c : ascii) : bool :=
  Nat.leb (nat_of_ascii lo) (nat_of_ascii c)
  && Nat.leb (nat_of_ascii c) (nat_of_ascii hi).

Definition lit (c : ascii) : regex := Class (Ascii.eqb c).

(** [\d], on text with code points 0..255: there the decimal digits are
    [0-9]. (On other text [\d] also takes the decimal digits of other
    scripts; such lines are outside this text type.) *)
Definition digit : ascii -> bool := in_range "0"%char "9"%char.

(** [[a-zA-Z0-9]] *)
Definition alnum (c : ascii) : bool :=
  in_range "a"%char "z"%char c || in_range "A"%char "Z"%char c
  || in_range "0"%char "9"%char c.

(** [[a-zA-Z0-9\-]] *)
Definition alnum_hyphen (c : ascii) : bool :=
  alnum c || Ascii.eqb c "-"%char.

(** [.] *)
Definition not_newline (c : ascii) : bool :=
  negb (Ascii.eqb c "010"%char).

(** [(?:1\d\d|2[0-5][0-5]|2[0-4]\d|0?[1-9]\d|0?0?\d)] *)
Definition octet : regex :=
  let d05 := Class (in_range "0"%char "5"%char) in
  let d04 := Class (in_range "0"%char "4"%char) in
  let d19 := Class (in_range "1"%char "9"%char) in
  let d := Class digit in
  let z := Opt (lit "0"%char) in
  Alt (Seq (lit "1"%char) (Seq d d))
 (Alt (Seq (lit "2"%char) (Seq d05 d05))
 (Alt (Seq (lit "2"%char) (Seq d04 d))
 (Alt (Seq z (Seq d19 d))
      (Seq z (Seq z d))))).

(** [ip_reg]: [(?:octet\.){3}octet] *)
Definition ip_reg : regex :=
  Seq (Times 3 (Seq octet (lit "."%char))) octet.

(** [([a-zA-Z0-9]|[a-zA-Z0-9][a-zA-Z0-9\-]{0,61}[a-zA-Z0-9])] *)
Definition label : regex :=
  Alt (Class alnum)
      (Seq (Class alnum) (Seq (Upto 61 (Class alnum_hyphen)) (Class alnum))).

(** The domain is pasted into the pattern as it is, so it is read as
    pattern text: a dot stands for any character but a newline. Domain
    names are made of letters, digits, hyphens, underscores and dots, and
    all of these but the dot stand for themselves. [chars_re c t] is the
    pattern for the non-empty pattern text [c t] over this alphabet
    ([Shapes.plain_domain]); a domain with other characters of pattern
    syntax ([|], [*], brackets, ...) is read by [re] in another way. *)
Fixpoint chars_re (c : ascii) (t : string) : regex :=
  let a := if Ascii.eqb c "."%char then Class not_newline else lit c in
  match t with
  | EmptyString => a
  | String c' t' => Seq a (chars_re c' t')
  end.

(** [hostname_reg]: [label(\.label)*?\.] followed by the domain. *)
Definition hostname_reg (self_domain : string) : regex :=
  let stem := Seq label (LazyStar (Seq (lit "."%char) label)) in
  match self_domain with
  | EmptyString => Seq stem (lit "."%char)
  | String c t => Seq stem (Seq (lit "."%char) (chars_re c t))
  end.

(** *** Measures and reference notions for the patterns *)

(** An upper bound on the number of characters a star-free pattern
    consumes. *)
Fixpoint width (r : regex) : nat :=
  match r with
  | Class _ => 1
  | Seq r1 r2 => width r1 + width r2
  | Alt r1 r2 => Nat.max (width r1) (width r2)
  | Opt r1 => width r1
  | Upto n r1 => n * width r1
  | Times n r1 => n * width r1
  | LazyStar _ => 0
  end.

(** Patterns without a star. *)
Fixpoint star_free (r : regex) : bool :=
  match r with
  | Class _ => true
  | Seq r1 r2 | Alt r1 r2 => star_free r1 && star_free r2
  | Opt r1 | Upto _ r1 | Times _ r1 => star_free r1
  | LazyStar _ => false
  end.

(** A digit string and the number it writes. *)
Definition digit_string (s : text) : Prop :=
  s <> [] /\ forallb digit s = true.

(** The value of a digit character, and of a string of them in base 10. *)
Definition digit_value (c : ascii) : nat := nat_of_ascii c - 48.

Definition decimal_value (s : text) : nat :=
  fold_left (fun acc c => 10 * acc + digit_value c) s 0.

(** The ten digits, and all strings of [n] digits. *)
Definition digits : list ascii := list_ascii_of_string "0123456789".

Fixpoint digit_strings (n : nat) : list text :=
  match n with
  | 0 => [[]]
  | S k => flat_map (fun c => map (cons c) (digit_strings k)) digits
  end.

(** Does [octet] match [s] in full exactly when [s] has at most three
    characters and a value of at most 255? *)
Definition octet_check (s : text) : bool :=
  Bool.eqb (fullmatch octet s)
           (Nat.leb (length s) 3 && Nat.leb (decimal_value s) 255).

End Regex.

(** ** The extractor: [_reverse_ip_lookup] and [aggregate] *)

Module Extractor.
Import Store Regex.

(** A call to the system resolver. *)
Inductive dns_call :=
| Forward (host : string)      (* socket.gethostbyname(host) *)
| Reverse (addr : string).     (* socket.gethostbyaddr(ip) *)

Section Resolver.

(** The resolver; [None] stands for a call that raises. *)
Variable gethostbyname : string -> option string.
Variable gethostbyaddr : string -> option hostent.

(** Truth value of [host]: a non-empty string or a triple. *)
Definition host_truthy (h : option host_val) : bool :=
  match h with
  | Some (HostStr s) => Py.truthy (Some s)
  | Some (HostTuple _) => true
  | None => false
  end.

(** The [try] block of the loop body: the two lookups, the second one
    skipped when the first raises. *)
Definition lookups (host : option string) (i : option string)
  : pair * list dns_call :=
  match host, i with
  | Some h, None =>
      (* ip = socket.gethostbyname(host); the second test then fails
         because host is not None *)
      match gethostbyname h with
      | Some a => ((Some (HostStr h), Some a), [Forward h])
      | None => ((Some (HostStr h), None), [Forward h])
      end
  | None, Some a =>
      (* host = socket.gethostbyaddr(ip) *)
      match gethostbyaddr a with
      | Some e => ((Some (HostTuple e), Some a), [Reverse a])
      | None => ((None, Some a), [Reverse a])
      end
  | _, _ => ((option_map HostStr host, i), [])
  end.

(** One iteration of [for line in f.readlines()]: the pairs added to
    [results] and the resolver calls made. *)
Definition extract_line (self_domain : string) (line : string)
  : list pair * list dns_call :=
  let host := re_match (hostname_reg self_domain) line in
  let i := re_match ip_reg line in
  let '((host', i'), calls) := lookups host i in
  if host_truthy host' || Py.truthy i' then ([(host', i')], calls)
  else ([], calls).

(** [_reverse_ip_lookup(filename)], on the lines of the file. *)
Fixpoint _reverse_ip_lookup (self_domain : string) (lines : list string)
  : list pair * list dns_call :=
  match lines with
  | [] => ([], [])
  | line :: rest =>
      let '(ps, cs) := extract_line self_domain line in
      let '(ps', cs') := _reverse_ip_lookup self_domain rest in
      (ps ++ ps', cs ++ cs')
  end.

(** [aggregate], on the lines of each file of [all_files]: the domain is
    registered, every file is parsed, and one [_build_db] call inserts all
    the pairs. Both tables exist from the first call on. *)
Definition aggregate (self_domain : string) (all_files : list (list string))
    (d : db) : db * list build_msg :=
  let d1 := register_domain (Py.replace_dot self_domain) d in
  let all_ips :=
    flat_map (fun lines => fst (_reverse_ip_lookup self_domain lines))
             all_files in
  _build_db self_domain all_ips d1.

End Resolver.

End Extractor.

(** ** The enricher: [_get_headers] and [headers] *)

Module Enricher.
Import Store.

(** Why [requests.get] raises. The first four are [Exception]s; an
    interrupt ([KeyboardInterrupt], [SystemExit]) is a [BaseException]
    only. *)
Inductive failure :=
| Timeout
| ConnectionRefused
| TLSError
| OtherException
| Interrupt.

Definition is_Exception (e : failure) : bool :=
  match e with
  | Interrupt => false
  | _ => true
  end.

(** What [logger.exception] records. *)
Inductive log_msg :=
| NoHttpHeader (ident : string)     (* Could not retrieve http header ... *)
| NoHttpsHeader (ident : string).   (* Could not retrieve https header ... *)

(** One run of [_get_headers]: what it returns or raises, what it logged,
    and the URLs it requested. *)
Record fetch := Fetch {
  f_out : Py.outcome (string * (option string * option string)) failure;
  f_log : list log_msg;
  f_urls : list string
}.

Section Requests.

(** [str(requests.get(url, headers=..., timeout=1, verify=False).headers)],
    or the exception the request raises. *)
Variable requests_get : string -> Py.outcome string failure.

(** The second [try]: [except BaseException] catches everything. *)
Definition get_https (ident : string) (http : option string)
    (log : list log_msg) (urls : list string) : fetch :=
  let url := "https://" +:+ ident in
  match requests_get url with
  | Py.Returned h =>
      Fetch (Py.Returned (ident, (http, Some h))) log (urls ++ [url])
  | Py.Raised _ =>
      Fetch (Py.Returned (ident, (http, None)))
            (log ++ [NoHttpsHeader ident]) (urls ++ [url])
  end.

(** [_get_headers(ip)]. The first [try] has [except Exception]. *)
Definition _get_headers (ident : string) : fetch :=
  let url := "http://" +:+ ident in
  match requests_get url with
  | Py.Returned h => get_https ident (Some h) [] [url]
  | Py.Raised e =>
      if is_Exception e then get_https ident None [NoHttpHeader ident] [url]
      else Fetch (Py.Raised e) [] [url]
  end.

End Requests.

(** The WHERE clause of the UPDATE by ip, and of the UPDATE by
    hostname. *)
Definition where_ip (key dom : string) (r : row) : bool :=
  sql_eq (ip r) (Some key) && in_domain dom r.

Definition where_hostname (key dom : string) (r : row) : bool :=
  sql_eq (hostname r) (Some key) && in_domain dom r.

(** The place of the row a statement with LIMIT 1 stops at: the first
    row that satisfies the WHERE clause, in the order in which the plan
    of the statement meets the rows. *)
Definition first_match (p : plan) (cond : row -> bool) (rows : list row)
  : option nat :=
  match List.find (fun ir => cond (snd ir)) (visit p rows) with
  | Some (i, _) => Some i
  | None => None
  end.

(** [UPDATE ... LIMIT 1], on an SQLite that accepts LIMIT in an UPDATE:
    one row is changed, the one the statement stops at; no row is changed
    when no row satisfies the WHERE clause. *)
Definition update_limit1 (p : plan) (cond : row -> bool) (f : row -> row)
    (rows : list row) : list row :=
  match first_match p cond rows with
  | Some i => alter f i rows
  | None => rows
  end.

(** [SET http_headers=?, https_headers=?] *)
Definition set_headers (http https : option string) (r : row) : row :=
  Row (domainid r) (ip r) (hostname r) http https (domain r).

(** [UPDATE data SET http_headers=?, https_headers=?
     WHERE ip = ? AND domain = ? LIMIT 1] *)
Definition update_headers_ip (pl : planner) (http https : option string)
    (key : string) (dom : string) (d : db) : db :=
  Db (domains d)
     (update_limit1 (pl UpdateByIp) (where_ip key dom)
                    (set_headers http https) (data d)).

(** [UPDATE data SET http_headers=?, https_headers=?
     WHERE hostname = ? AND domain = ? LIMIT 1] *)
Definition update_headers_hostname (pl : planner)
    (http https : option string) (key : string) (dom : string) (d : db)
  : db :=
  Db (domains d)
     (update_limit1 (pl UpdateByHostname) (where_hostname key dom)
                    (set_headers http https) (data d)).

(** [SELECT ip FROM data WHERE ip IS NOT NULL AND domain='...'], each row
    reduced to [item[0]]. Both waves of [headers] run this statement. *)
Definition select_ip (pl : planner) (dom : string) (d : db) : list string :=
  omap (fun r => if in_domain dom r then ip r else None)
       (scan (pl SelectIps) (data d)).

Section Waves.

(** The plans of the statements, and [Robot.grab_header],
    which is not part of the sources at hand: it maps an identifier to
    [(identifier, (http, https))]. *)
Variable pl : planner.
Variable grab_header : string -> string * (option string * option string).

(** [dict(pool.map(Robot.grab_header, ids))] *)
Definition fetch_all (ids : list string)
  : list (string * (option string * option string)) :=
  Py.dict (map grab_header ids).

(** The first transaction: one UPDATE by ip per entry of [ip_headers]. *)
Definition ip_wave (dom : string) (ids : list string) (d : db) : db :=
  fold_left (fun acc kv =>
               update_headers_ip pl (fst (snd kv)) (snd (snd kv)) (fst kv) dom
                                 acc)
            (fetch_all ids) d.

(** The second transaction: one UPDATE by hostname per entry of
    [hostname_headers]. *)
Definition hostname_wave (dom : string) (ids : list string) (d : db) : db :=
  fold_left (fun acc kv =>
               update_headers_hostname pl (fst (snd kv)) (snd (snd kv))
                                       (fst kv) dom acc)
            (fetch_all ids) d.

(** One run of [headers]: the identifiers each wave fetched, and the
    table at the end. *)
Record enrichment := Enrichment {
  ips : list string;           (* the list [ips] *)
  hostnames : list string;     (* the list [hostnames] *)
  result : db
}.

(** [headers()] *)
Definition headers (self_domain : string) (d : db) : enrichment :=
  let dom := Py.replace_dot self_domain in
  let ips := select_ip pl dom d in
  let d1 := ip_wave dom ips d in
  let hostnames := select_ip pl dom d1 in
  let d2 := hostname_wave dom hostnames d1 in
  Enrichment ips hostnames d2.

End Waves.

(** The header text a request yields: nothing when it raised. *)
Definition header_of (o : Py.outcome string failure) : option string :=
  match o with
  | Py.Returned h => Some h
  | Py.Raised _ => None
  end.

End Enricher.

(** ** The indexer: [_gen_output] *)

Module Indexer.
Import Store.

(** An entry of [file_index]. *)
Record entry := Entry {
  hostnames : list (option string);
  http_header : option string;
  https_header : option string;
  images : list string
}.

(** [SELECT * FROM data WHERE domain='...'
     AND (http_headers IS NOT NULL OR https_headers IS NOT NULL)]: no
    column of the index is asked for, the table is scanned. *)
Definition db_headers (dom : string) (d : db) : list row :=
  filter (fun r => in_domain dom r
                   && (bool_decide (http_headers r <> None)
                       || bool_decide (https_headers r <> None)) = true)
         (data d).

(** [SELECT DISTINCT ip, hostname FROM data WHERE domain='...']: the
    pairs in the order in which the plan meets their rows, each at its
    first row. *)
Definition db_ips (pl : planner) (dom : string) (d : db)
  : list (option string * option string) :=
  distinct
    (map (fun r => (ip r, hostname r))
         (filter (fun r => in_domain dom r = true)
                 (scan (pl IndexIps) (data d)))).

Section Files.

(** [glob.glob(pattern, recursive=True)] in the working directory,
    [getcwd()] and [join_abs]. *)
Variable glob : string -> list string.
Variable getcwd : string.
Variable join_abs : list string -> string.

(** The body of the first loop, for one row of [db_headers]. *)
Definition seed (file_index : gmap (option string) entry) (r : row)
  : gmap (option string) entry :=
  let ip_screenshots := glob ("**/*" +:+ Py.str_of (ip r) +:+ "*") in
  let hostname_screenshots :=
    glob ("**/*" +:+ Py.str_of (hostname r) +:+ "*") in
  let image_files :=
    map (fun f => join_abs [getcwd; f]) ip_screenshots
    ++ map (fun f => join_abs [getcwd; f]) hostname_screenshots in
  <[ip r := Entry [hostname r] (http_headers r) (https_headers r) image_files]>
    file_index.

(** The body of the second loop, for one row of [db_ips]. *)
Definition add_host (file_index : gmap (option string) entry)
    (item : option string * option string) : gmap (option string) entry :=
  let '(i, h) := item in
  match file_index !! i with
  | None => <[i := Entry [h] (Some "") (Some "") []]> file_index
  | Some e =>
      if bool_decide (h ∈ hostnames e) then file_index
      else <[i := Entry (hostnames e ++ [h]) (http_header e) (https_header e)
                        (images e)]> file_index
  end.

(** [_gen_output()]; [dbfile] is [None] when the database file does not
    exist, and the function then returns [None]. *)
Definition _gen_output (pl : planner) (self_domain : string)
    (dbfile : option db) : option (gmap (option string) entry) :=
  match dbfile with
  | None => None
  | Some d =>
      let dom := Py.replace_dot self_domain in
      let phase1 := fold_left seed (db_headers dom d) ∅ in
      Some (fold_left add_host (db_ips pl dom d) phase1)
  end.

End Files.

End Indexer.

(** ** The exporter: [dump_to_file] *)

Module Exporter.
Import Store.

(** The files on disk: path to content. *)
Abbreviation fs := (gmap string string).

(** What is raised inside the [try] of [dump_to_file]: [open] cannot
    open the path for writing, or a query fails ([no such table: data] on
    a database file that [aggregate] has not filled, a locked or damaged
    file). *)
Inductive io_error :=
| OSError (path : string)
| DatabaseError (msg : string).

(** A row of the [headers] query under [KEYS]: [dict(zip(KEYS, row))]. *)
Record header_row := HeaderRow {
  Ip : option string;
  Hostname : option string;
  Http : option string;
  Https : option string
}.

#[global] Instance header_row_eq_dec : EqDecision header_row.
Proof. solve_decision. Defined.

(** What [dump_to_file] prints. *)
Inductive dump_msg :=
| FailedToWrite                (* "Failed to write to files in ..." *)
| Exc (e : io_error).          (* print(e) *)

(** [SELECT DISTINCT ip FROM data WHERE domain='...' AND ip IS NOT NULL]:
    the values in the order in which the plan of the statement meets
    their rows, each at its first row. *)
Definition ips (pl : planner) (dom : string) (d : db) : list string :=
  distinct
    (omap (fun r => if in_domain dom r then ip r else None)
          (scan (pl ExportIps) (data d))).

(** [SELECT DISTINCT hostname FROM data WHERE domain='...'
     AND hostname IS NOT NULL] *)
Definition hostnames (pl : planner) (dom : string) (d : db) : list string :=
  distinct
    (omap (fun r => if in_domain dom r then hostname r else None)
          (scan (pl ExportHostnames) (data d))).

(** [SELECT DISTINCT ip, hostname, http_headers, https_headers FROM data
     WHERE domain='...'
     AND (http_headers IS NOT NULL AND https_headers IS NOT NULL)] *)
Definition headers (pl : planner) (dom : string) (d : db)
  : list header_row :=
  distinct
    (map (fun r => HeaderRow (ip r) (hostname r) (http_headers r)
                             (https_headers r))
         (filter (fun r => in_domain dom r
                           && (bool_decide (http_headers r <> None)
                               && bool_decide (https_headers r <> None)) = true)
                 (scan (pl ExportHeaders) (data d)))).

(** The newline of ["\n".join(...)]. *)
Definition nl : string := String "010"%char EmptyString.

(** ["\n".join(list(ip[0] for ip in ips))] *)
Definition ips_text (pl : planner) (dom : string) (d : db) : string :=
  String.concat nl (ips pl dom d).

(** ["\n".join(list(f"{host[0]}" for host in hostnames))] *)
Definition hostnames_text (pl : planner) (dom : string) (d : db) : string :=
  String.concat nl (hostnames pl dom d).

(** ["\n".join(list(f"https://{host[0]}\nhttp://{host[0]}" for host in
    hostnames))] *)
Definition protocol_hostnames_text (pl : planner) (dom : string) (d : db)
  : string :=
  String.concat nl
    (map (fun h => "https://" +:+ h +:+ nl +:+ "http://" +:+ h)
         (hostnames pl dom d)).

(** A computation that reads and writes files and may raise. *)
Definition io (A : Type) : Type := fs -> Py.outcome A io_error * fs.

Definition ret {A} (x : A) : io A := fun st => (Py.Returned x, st).

Definition bind {A B} (m : io A) (k : A -> io B) : io B :=
  fun st =>
    match m st with
    | (Py.Returned x, st') => k x st'
    | (Py.Raised e, st') => (Py.Raised e, st')
    end.

Declare Scope io_scope.
Delimit Scope io_scope with io.
Notation "m ;; k" := (bind m (fun _ => k))
  (at level 100, k at level 200, right associativity) : io_scope.
Local Open Scope io_scope.

Definition when (b : bool) (m : io unit) : io unit :=
  if b then m else ret tt.

Fixpoint for_each {A} (l : list A) (body : A -> io unit) : io unit :=
  match l with
  | [] => ret tt
  | x :: t => body x ;; for_each t body
  end.

Section Files.

(** [join_abs], [json.dumps(r, indent=2)], and which paths can be opened
    for writing. *)
Variable join_abs : list string -> string.
Variable json_dumps : header_row -> string.
Variable writable : string -> bool.

(** [with open(path, 'w') as f: f.write(content)]: the file is replaced
    as a whole, or [open] raises and nothing changes. *)
Definition write_file (path content : string) : io unit :=
  fun st =>
    if writable path then (Py.Returned tt, <[path := content]> st)
    else (Py.Raised (OSError path), st).

Definition ips_path (output_dir : string) : string :=
  join_abs [output_dir; "aggregated"; "aggregated_ips.txt"].

Definition hostnames_path (output_dir : string) : string :=
  join_abs [output_dir; "aggregated"; "aggregated_hostnames.txt"].

Definition protocol_hostnames_path (output_dir : string) : string :=
  join_abs [output_dir; "aggregated"; "aggregated_protocol_hostnames.txt"].

Definition header_path (output_dir : string) (r : header_row) : string :=
  join_abs [output_dir; "headers"; Py.str_of (Hostname r) +:+ "_headers.txt"].

(** The three queries at the head of the [try] block: they read the
    tables, or one of them raises; no file is touched. *)
Definition run_queries (source : Py.outcome db io_error) : io db :=
  fun st => (source, st).

(** The statements of the [try] block after the three queries. *)
Definition dump_files (pl : planner) (self_domain output_dir : string)
    (dump_ips dump_hostnames dump_headers : bool) (d : db) : io unit :=
  let dom := Py.replace_dot self_domain in
  when dump_ips
    (write_file (ips_path output_dir) (ips_text pl dom d)) ;;
  when dump_hostnames
    (write_file (hostnames_path output_dir) (hostnames_text pl dom d) ;;
     write_file (protocol_hostnames_path output_dir)
                (protocol_hostnames_text pl dom d)) ;;
  when dump_headers
    (for_each (headers pl dom d)
              (fun r => write_file (header_path output_dir r) (json_dumps r))).

(** The [try] block: the queries, then the files. *)
Definition dump_body (pl : planner) (self_domain output_dir : string)
    (dump_ips dump_hostnames dump_headers : bool)
    (source : Py.outcome db io_error) : io unit :=
  bind (run_queries source)
       (dump_files pl self_domain output_dir dump_ips dump_hostnames
                   dump_headers).

(** One call of [dump_to_file]: what the call returns to its caller, what
    it printed, and the files afterwards. *)
Record dump := Dump {
  returned : Py.outcome unit io_error;
  printed : list dump_msg;
  files : fs
}.

(** [dump_to_file(dump_ips, dump_hostnames, dump_headers)] on a database
    file that answers the queries with [source]: the body under [try];
    [except Exception as e] prints twice and returns; without an
    exception the function ends and returns [None] as well. *)
Definition dump_to_file (pl : planner) (self_domain output_dir : string)
    (dump_ips dump_hostnames dump_headers : bool)
    (source : Py.outcome db io_error) (st : fs) : dump :=
  match dump_body pl self_domain output_dir dump_ips dump_hostnames
                  dump_headers source st with
  | (Py.Returned _, st') => Dump (Py.Returned tt) [] st'
  | (Py.Raised e, st') => Dump (Py.Returned tt) [FailedToWrite; Exc e] st'
  end.

(** The writes of one export, in the order of the code: path and content. *)
Definition export_steps (pl : planner) (self_domain output_dir : string)
    (dump_ips dump_hostnames dump_headers : bool) (d : db)
  : list (string * string) :=
  let dom := Py.replace_dot self_domain in
  (if dump_ips
   then [(ips_path output_dir, ips_text pl dom d)]
   else [])
  ++ (if dump_hostnames
      then [(hostnames_path output_dir, hostnames_text pl dom d);
            (protocol_hostnames_path output_dir,
             protocol_hostnames_text pl dom d)]
      else [])
  ++ (if dump_headers
      then map (fun r => (header_path output_dir r, json_dumps r))
               (headers pl dom d)
      else []).

(** The files after a list of writes that all succeed. *)
Definition written (steps : list (string * string)) (st : fs) : fs :=
  fold_left (fun acc s => <[fst s := snd s]> acc) steps st.

(** The writes one after the other, up to the first that fails. *)
Fixpoint run_steps (steps : list (string * string)) : io unit :=
  match steps with
  | [] => ret tt
  | (p, c) :: t => write_file p c ;; run_steps t
  end.

End Files.

End Exporter.

(** ** Reading and finding the scan files: [_read_file] and the first part
    of [aggregate] *)

Module Discovery.

(** [chunk_size = 10000] *)
Definition chunk_size : nat := 100 * 100.

(** The loop of [_read_file]: [chunks] is the list being filled, the
    result is the list of the lists yielded. A full list is yielded and a
    new one begun; what is left at the end of the file is yielded too. *)
Fixpoint read_loop (size : nat) (lines chunks : list string)
  : list (list string) :=
  match lines with
  | [] => [chunks]
  | line :: rest =>
      let chunks' := chunks ++ [line] in
      if Nat.leb size (length chunks') then chunks' :: read_loop size rest []
      else read_loop size rest chunks'
  end.

(** [_read_file(filename)], on the lines of the file. *)
Definition _read_file (lines : list string) : list (list string) :=
  read_loop chunk_size lines [].

(** What the first part of [aggregate] prints. *)
Inductive agg_msg :=
| FileMissing (name : string).   (* [!] File ... does not exist, ... *)

Section Files.

(** [os.path.isfile], [os.walk] (its triples root, dirs, files) and
    [join_abs]. *)
Variable isfile : string -> bool.
Variable walk : string -> list (string * list string * list string).
Variable join_abs : list string -> string.

(** The body of [for name in output_files]. *)
Definition add_output_file (output_dir : string)
    (acc : list string * list agg_msg) (name : string)
  : list string * list agg_msg :=
  if isfile (join_abs [output_dir; name])
  then (fst acc ++ [join_abs [output_dir; name]], snd acc)
  else if isfile name then (fst acc ++ [name], snd acc)
  else (fst acc, snd acc ++ [FileMissing name]).

(** The files one folder of [output_folders] adds. *)
Definition folder_files (output_dir folder : string) : list string :=
  flat_map
    (fun entry : string * list string * list string =>
       let '(root, _, files) := entry in
       flat_map (fun f => if isfile (join_abs [root; f])
                          then [join_abs [root; f]] else [])
                files)
    (walk (join_abs [output_dir; folder])).

(** The list [all_files] of [aggregate], and what was printed on the
    way. *)
Definition all_files (output_dir : string)
    (output_files output_folders : list string)
  : list string * list agg_msg :=
  let '(found, msgs) :=
    fold_left (add_output_file output_dir) output_files ([], []) in
  (found ++ flat_map (folder_files output_dir) output_folders, msgs).

End Files.

End Discovery.

(** ** The constraints of the two tables, as predicates on a state *)

Module Constraints.
Import Store.




End Constraints.

(** ** Reference notions for what the two patterns take from a line *)

Module Shapes.
Import Regex.

(** The text of an octet: one to three digits with a value of at most
    255. *)
Definition octet_text (s : text) : Prop :=
  digit_string s /\ length s <= 3 /\ decimal_value s <= 255.

(** A dotted quad: four octets with dots between them. *)
Definition dotted_quad (s : text) : Prop :=
  exists a b c d,
    s = a ++ "."%char :: b ++ "."%char :: c ++ "."%char :: d
    /\ octet_text a /\ octet_text b /\ octet_text c /\ octet_text d.

(** A character of a text against a character of the domain as the
    pattern reads it: a dot of the domain goes with any character but a
    newline, every other character with itself. *)
Definition fits_char (pc c : ascii) : bool :=
  if Ascii.eqb pc "."%char then not_newline c else Ascii.eqb pc c.

Fixpoint fits (dom : string) (t : text) : bool :=
  match dom, t with
  | EmptyString, [] => true
  | String pc dom', c :: t' => fits_char pc c && fits dom' t'
  | _, _ => false
  end.

(** ASCII text. *)
Definition is_ascii (c : ascii) : bool := Nat.ltb (nat_of_ascii c) 128.

Definition ascii_text (s : text) : bool := forallb is_ascii s.

(** The alphabet of domain names. *)
Definition domain_char (c : ascii) : bool :=
  alnum c || Ascii.eqb c "-"%char || Ascii.eqb c "_"%char
  || Ascii.eqb c "."%char.

Definition plain_domain (dom : string) : bool :=
  forallb domain_char (list_ascii_of_string dom).

(** The characters every class of a pattern is made of. *)
Fixpoint classes_in (P : ascii -> bool) (r : regex) : Prop :=
  match r with
  | Class p => forall c, p c = true -> P c = true
  | Seq r1 r2 | Alt r1 r2 => classes_in P r1 /\ classes_in P r2
  | Opt r1 | Upto _ r1 | Times _ r1 | LazyStar r1 => classes_in P r1
  end.

(** A matcher that looks at the text it consumes and at nothing else. *)
Definition framed (m : text -> list text) : Prop :=
  forall s rest,
    In rest (m s) <-> exists pre, s = pre ++ rest /\ In [] (m pre).

End Shapes.

(** ** What identifies a target *)

Module Targets.
Import Store.

(** The columns of a row other than the two header columns. *)
Definition target_key (r : row)
  : nat * option string * option string * option string :=
  (domainid r, ip r, hostname r, domain r).

(** The relation between a row before and after [headers()]: the columns
    that identify the target are the same, and the row is the same unless
    it is a row of the domain whose ip or hostname is one of [keys]. *)
Definition enriched_from (dom : string) (keys : list string) (r r' : row)
  : Prop :=
  target_key r' = target_key r
  /\ (r' = r
      \/ (in_domain dom r = true
          /\ exists k, k ∈ keys /\ (ip r = Some k \/ hostname r = Some k))).

(** A row with the headers the fetcher gives for [k]. *)
Definition fetched
    (grab_header : string -> string * (option string * option string))
    (k : string) (r : row) : row :=
  Enricher.set_headers (fst (snd (grab_header k)))
                       (snd (snd (grab_header k))) r.

End Targets.

(** ** Reference notions for the index *)

Module IndexShapes.
Import Store Indexer.

(** The list [image_files] the first loop of [_gen_output] builds for a
    row: the paths found for the ip, then those found for the hostname. *)
Definition image_files (glob : string -> list string) (getcwd : string)
    (join_abs : list string -> string) (r : row) : list string :=
  map (fun f => join_abs [getcwd; f])
      (glob ("**/*" +:+ Py.str_of (ip r) +:+ "*"))
  ++ map (fun f => join_abs [getcwd; f])
         (glob ("**/*" +:+ Py.str_of (hostname r) +:+ "*")).



End IndexShapes.

(** ** Reference notions for the exported lists *)

Module ExportShapes.
Import Store Exporter.


End ExportShapes.

(** ** Posting the result files: [Mattermost] (src/upload.py) *)

Module Upload.

(** The exceptions the upload code names, and any other. The four errors
    of mattermostdriver are subclasses of [requests.HTTPError], which is
    an [OSError]; [OSError] here is any other [OSError] (of the file
    system, of [requests]), [OtherError] an exception that is not one. *)
Inductive api_error :=
| NoAccessTokenProvided
| InvalidOrMissingParameters
| ContentTooLarge
| ResourceNotFound
| OSError
| UnboundLocalError
| OtherError.

(** What the upload code prints. *)
Inductive upload_msg :=
| DoingPost                          (* [*] doing post message *)
| Uploading (filename : string)      (* [...] Uploading ... *)
| TooBig (filename : string)         (* [!] File ... is to big, ... *)
| Handled (e : api_error).           (* [!] <label of the handler> <e> *)

(** One run of [_upload_files]: the posts created, each with its
    [file_ids]; the ids of all files uploaded; the list [file_ids] at the
    end; what was printed; and how the call ended. *)
Record upload_run := UploadRun {
  posts : list (list string);
  uploaded : list string;
  pending : list string;
  up_printed : list upload_msg;
  up_out : Py.outcome unit api_error
}.

(** [st_size / 1024 ** 2 > 49] for a size in bytes: the quotient by a
    power of two is exact in floating point, so the test is a comparison
    of the size with 49 MiB. *)
Definition too_big (size : N) : bool := N.ltb (49 * 1024 ^ 2) size.

Section Mattermost.

(** [os.walk], [join_abs], [stat(path).st_size],
    [inst.files.upload_file(...)['file_infos'][0]['id']] for a channel, a
    file name and a path, and [inst.posts.create_post] for a channel and
    its [file_ids]; each of the last three may raise. *)
Variable walk : string -> list (string * list string * list string).
Variable join_abs : list string -> string.
Variable st_size : string -> Py.outcome N api_error.
Variable upload_file : string -> string -> string -> Py.outcome string api_error.
Variable create_post : string -> list string -> option api_error.

(** The two nested loops of [_upload_files] and the statement behind
    them, over the pairs (root, filename) in the order of the walk. *)
Fixpoint upload_loop (channel_id : string) (todo : list (string * string))
    (file_ids : list string) (acc : upload_run) : upload_run :=
  match todo with
  | [] =>
      if Nat.ltb 0 (length file_ids) then
        match create_post channel_id file_ids with
        | None =>
            UploadRun (posts acc ++ [file_ids]) (uploaded acc) []
                      (up_printed acc) (Py.Returned tt)
        | Some e =>
            UploadRun (posts acc) (uploaded acc) file_ids (up_printed acc)
                      (Py.Raised e)
        end
      else
        UploadRun (posts acc) (uploaded acc) file_ids (up_printed acc)
                  (Py.Returned tt)
  | (root, filename) :: rest =>
      let printed := up_printed acc ++ [Uploading filename] in
      match st_size (join_abs [root; filename]) with
      | Py.Raised e =>
          UploadRun (posts acc) (uploaded acc) file_ids printed (Py.Raised e)
      | Py.Returned size =>
          if too_big size then
            upload_loop channel_id rest file_ids
              (UploadRun (posts acc) (uploaded acc) file_ids
                         (printed ++ [TooBig filename]) (Py.Returned tt))
          else
            match upload_file channel_id filename
                              (join_abs [root; filename]) with
            | Py.Raised e =>
                UploadRun (posts acc) (uploaded acc) file_ids printed
                          (Py.Raised e)
            | Py.Returned ident =>
                let file_ids' := file_ids ++ [ident] in
                let uploaded' := uploaded acc ++ [ident] in
                if Nat.leb 5 (length file_ids') then
                  match create_post channel_id file_ids' with
                  | None =>
                      upload_loop channel_id rest []
                        (UploadRun (posts acc ++ [file_ids']) uploaded' []
                                   printed (Py.Returned tt))
                  | Some e =>
                      UploadRun (posts acc) uploaded' file_ids' printed
                                (Py.Raised e)
                  end
                else
                  upload_loop channel_id rest file_ids'
                    (UploadRun (posts acc) uploaded' file_ids' printed
                               (Py.Returned tt))
            end
      end
  end.

(** The files of a walk, in its order: [for root, dirs, files in walk(...):
    for filename in files]. *)
Definition walk_files (file_location : string) : list (string * string) :=
  flat_map (fun entry : string * list string * list string =>
              let '(root, _, files) := entry in map (pair root) files)
           (walk file_location).

(** [_upload_files(file_location, channel_id)] *)
Definition _upload_files (file_location channel_id : string) : upload_run :=
  upload_loop channel_id (walk_files file_location) []
              (UploadRun [] [] [] [] (Py.Returned tt)).

(** [inst.login()] and the two lookups that give [channel_id];
    [os.path.exists] and [os.path.abspath]. *)
Variable resolve_channel : Py.outcome string api_error.
Variable exists_ : string -> bool.
Variable abspath : string -> string.

(** The handlers of the second [try] of [upload]: [ContentTooLarge],
    [ResourceNotFound], and [OSError], which takes the other errors of
    mattermostdriver as well, since they are [OSError]s. *)
Definition handled_upload (e : api_error) : bool :=
  match e with
  | NoAccessTokenProvided | InvalidOrMissingParameters
  | ContentTooLarge | ResourceNotFound | OSError => true
  | UnboundLocalError | OtherError => false
  end.

(** The second half of [upload]: the choice of [file_location], the call
    of [_upload_files] and its handlers. [channel_id] is [None] when the
    first [try] ended in a handler and the name was never bound: reading
    it raises [UnboundLocalError], which no handler takes. *)
Definition upload_from (output_dir : string) (filepath : option string)
    (channel_id : option string) (printed : list upload_msg) : upload_run :=
  let file_location :=
    match filepath with
    | Some p =>
        if Py.truthy (Some p) && exists_ (abspath p) then abspath p
        else output_dir
    | None => output_dir
    end in
  match channel_id with
  | None => UploadRun [] [] [] printed (Py.Raised UnboundLocalError)
  | Some ch =>
      let run := _upload_files file_location ch in
      match up_out run with
      | Py.Raised e =>
          if handled_upload e then
            UploadRun (posts run) (uploaded run) (pending run)
                      (printed ++ up_printed run ++ [Handled e])
                      (Py.Returned tt)
          else
            UploadRun (posts run) (uploaded run) (pending run)
                      (printed ++ up_printed run) (Py.Raised e)
      | Py.Returned _ =>
          UploadRun (posts run) (uploaded run) (pending run)
                    (printed ++ up_printed run) (Py.Returned tt)
      end
  end.

(** [upload()] *)
Definition upload (output_dir : string) (filepath : option string)
  : upload_run :=
  match resolve_channel with
  | Py.Returned ch => upload_from output_dir filepath (Some ch) [DoingPost]
  | Py.Raised NoAccessTokenProvided =>
      upload_from output_dir filepath None
                  [DoingPost; Handled NoAccessTokenProvided]
  | Py.Raised InvalidOrMissingParameters =>
      upload_from output_dir filepath None
                  [DoingPost; Handled InvalidOrMissingParameters]
  | Py.Raised e => UploadRun [] [] [] [DoingPost] (Py.Raised e)
  end.

End Mattermost.

(** The shape of the list of posts: posts of five, then at most one post
    of one to four. *)
Definition batches (ps : list (list string)) : Prop :=
  exists full last,
    ps = full ++ last
    /\ Forall (fun p => length p = 5) full
    /\ length last <= 1
    /\ Forall (fun p => 1 <= length p <= 4) last.

(** A file above the limit, by the size the file system gives. *)
Definition big (join_abs : list string -> string) (sizes : string -> N)
    (rf : string * string) : bool :=
  too_big (sizes (join_abs [fst rf; snd rf])).

End Upload.

(** ** Handing the hostname list to a playbook: [Ansible.__init__]
    (src/ansible.py) *)

Module Ansible.

(** The keyword arguments [__init__] reads. The output directory is taken
    as given: with none, [join_abs] would be called on [None]. The
    arguments of the playbook are kept as they come. *)
Record kwargs (A : Type) := Kwargs {
  kw_ansible_arguments : A;
  kw_ansible_file_location : option string;
  kw_domain : option string;
  kw_output_dir : string;
  kw_infile : option string
}.
Arguments Kwargs {A}.
Arguments kw_ansible_arguments {A}.
Arguments kw_ansible_file_location {A}.
Arguments kw_domain {A}.
Arguments kw_output_dir {A}.
Arguments kw_infile {A}.

(** The object after [__init__]. *)
Record ansible (A : Type) := AnsibleObj {
  ansible_base : string;
  ansible_arguments : A;
  ansible_file : string;
  domain : string;
  output_dir : string;
  infile : string;
  final_command : option string
}.
Arguments AnsibleObj {A}.
Arguments ansible_base {A}.
Arguments ansible_arguments {A}.
Arguments ansible_file {A}.
Arguments domain {A}.
Arguments output_dir {A}.
Arguments infile {A}.
Arguments final_command {A}.

Inductive init_error :=
| TypeError (msg : string).

Section Init.

Variable isfile : string -> bool.
Variable join_abs : list string -> string.

(** [Ansible.__init__] on its keyword arguments. *)
Definition __init__ {A} (kw : kwargs A) : Py.outcome (ansible A) init_error :=
  if negb (Py.truthy (kw_ansible_file_location kw)) then
    Py.Raised (TypeError
      "argument ansible_file must be of type string, not 'NoneType'")
  else if negb (Py.truthy (kw_domain kw)) then
    Py.Raised (TypeError
      "argument domain must be of type string, not 'NoneType'")
  else
    let given := kw_infile kw in
    let infile :=
      match given with
      | None =>
          join_abs [kw_output_dir kw; "aggregated";
                    "aggregated_hostnames.txt"]
      | Some p =>
          if isfile p
          then join_abs [kw_output_dir kw; "aggregated";
                         "aggregated_hostnames.txt"]
          else p
      end in
    Py.Returned
      (AnsibleObj "ansible-playbook $flags $config"
                  (kw_ansible_arguments kw)
                  (Py.str_of (kw_ansible_file_location kw))
                  (Py.str_of (kw_domain kw))
                  (kw_output_dir kw) infile None).

End Init.

End Ansible.

(** ** Sample data for the scenarios *)

Module Samples.
Import Store Enricher Exporter.

(** An empty table for the registered domain example.com. *)
Definition d_example : db := Db ["example_com"] [].

(** Two observations. *)
Definition pair_a : pair := (Some (HostStr "a.example.com"), Some "1.1.1.1").

Definition pair_b : pair := (Some (HostStr "b.example.com"), Some "2.2.2.2").

(** A resolver that never answers. *)
Definition no_forward : string -> option string := fun _ => None.

Definition no_reverse : string -> option hostent := fun _ => None.

(** A network in which plain HTTP to 9.9.9.9 times out and everything
    else answers. *)
Definition http_times_out (url : string) : Py.outcome string failure :=
  if String.eqb url "http://9.9.9.9" then Py.Raised Timeout
  else Py.Returned "{'Server': 'nginx'}".

(** One target, not enriched yet. *)
Definition d_one_target : db :=
  Db ["example_com"]
     [Row 1 (Some "1.2.3.4") (Some "a.example.com") None None
          (Some "example_com")].




(** A working directory without files. *)
Definition no_files : string -> list string := fun _ => [].

(** [join_abs] on POSIX paths, and a stand-in for [json.dumps]. *)
Definition join_slash : list string -> string := String.concat "/".

Definition json_stub : header_row -> string := fun _ => "{}".

(** One target with an HTTP header and no HTTPS header. *)
Definition d_http_only : db :=
  Db ["example_com"]
     [Row 1 (Some "9.9.9.9") (Some "a.example.com") (Some "X") None
          (Some "example_com")].

(** A disk on which the hostname list cannot be opened for writing. *)
Definition hostnames_locked (path : string) : bool :=
  negb (String.eqb path "out/aggregated/aggregated_hostnames.txt").


Definition reverse_all : string -> option hostent :=
  fun a => Some (HostEnt "dns.example.com" [] [a]).

(** A name of another domain that the pattern for example.com takes. *)
Definition foreign_name : Regex.text :=
  list_ascii_of_string "exampleXcom".

(** A fetcher that returns its identifier with fixed headers. *)
Definition grab_fixed (ident : string)
  : string * (option string * option string) :=
  (ident, (Some "H", Some "S")).



(** The plans SQLite 3.40 reports for the statements (EXPLAIN QUERY
    PLAN): the index for the statements that are DISTINCT on [ip] or
    compare it with a value, the table for the plain SELECT of the ips
    and for the two statements on [hostname]. *)
Definition sqlite_plans : planner :=
  fun s =>
    match s with
    | SelectIps | ExportHostnames | UpdateByHostname => TableScan
    | _ => IndexScan
    end.

(** Two hostnames of one address, the later row with the smaller
    hostname. *)
Definition d_later_first : db :=
  Db ["example_com"]
     [Row 1 (Some "9.9.9.9") (Some "b.example.com") None None
          (Some "example_com");
      Row 2 (Some "9.9.9.9") (Some "a.example.com") None None
          (Some "example_com")].

(** The keyword arguments of a playbook run without [infile]. *)
Definition kw_default : Ansible.kwargs unit :=
  Ansible.Kwargs tt (Some "playbooks") (Some "example.com") "out" None.

End Samples.

(** * Properties *)

(** ** Store: the bulk insert *)

Section StoreFacts.
Import Store Samples.

(** An INSERT that succeeds: no constraint spoke against the row, and the
    row is added behind the rows of the table. *)
Lemma insert_data_inl (i : option string) (h : option host_val)
    (dom : string) (d d' : db) :
  insert_data i h dom d = inl d' ->
  exists hn,
    h = option_map HostStr hn /\
    violates_unique i hn (data d) = false /\
    fk_ok dom d = true /\
    d' = Db (domains d)
            (data d ++ [Row (next_rowid (data d)) i hn None None (Some dom)]).
Proof.
  unfold insert_data.
  destruct h as [[s | e] | ]; try discriminate.
  - destruct (violates_unique i (Some s) (data d)) eqn:Hv; try discriminate.
    destruct (fk_ok dom d) eqn:Hf; simpl; try discriminate.
    intros [= <-]. exists (Some s). auto.
  - destruct (violates_unique i None (data d)) eqn:Hv; try discriminate.
    destruct (fk_ok dom d) eqn:Hf; simpl; try discriminate.
    intros [= <-]. exists None. auto.
Qed.

(** The loop is over at the first pair the table refuses: the pairs
    behind it are not looked at. *)
Lemma insert_loop_stops (dom : string) (pre post : list pair)
    (h : option host_val) (i : option string) (d d1 : db) (e : sql_error) :
  insert_loop dom pre d = (d1, None) ->
  insert_data i h dom d1 = inr e ->
  insert_loop dom (pre ++ (h, i) :: post) d = (d1, Some (h, i)).
Proof.
  revert d.
  induction pre as [ | [h0 i0] pre IH]; intros d Hpre Hbad; simpl in *.
  - injection Hpre as ->. now rewrite Hbad.
  - destruct (insert_data i0 h0 dom d) as [d' | e'] eqn:Hins.
    + now apply IH.
    + discriminate.
Qed.

(** A pair without a null is refused exactly when the table has a row
    with it. *)
Lemma violates_unique_count (i h : string) (d : db) :
  violates_unique (Some i) (Some h) (data d) = true <->
  0 < count_pair (Some i) (Some h) d.
Proof.
  unfold count_pair, violates_unique.
  induction (data d) as [ | r rows IH]; simpl.
  - split; [discriminate | lia].
  - rewrite filter_cons.
    assert (Hsame : unique_conflict (Some i) (Some h) r
                    = same_pair (Some i) (Some h) r).
    { unfold unique_conflict, same_pair, sql_eq.
      destruct r as [n [ri | ] [rh | ] ht hs dm]; simpl;
        repeat case_bool_decide; simplify_eq;
        rewrite ?String.eqb_refl; simpl; try reflexivity;
        try (destruct (String.eqb_spec i ri); simplify_eq; simpl);
        try (destruct (String.eqb_spec h rh); simplify_eq; simpl);
        try reflexivity; try congruence. }
    rewrite Hsame. destruct (same_pair (Some i) (Some h) r) eqn:Hs.
    + rewrite decide_True by reflexivity. simpl. split; [lia | reflexivity].
    + rewrite decide_False by discriminate. exact IH.
Qed.

Lemma count_pair_snoc (i h : option string) (dms : list string)
    (rows : list row) (r : row) :
  count_pair i h (Db dms (rows ++ [r]))
  = count_pair i h (Db dms rows) + (if same_pair i h r then 1 else 0).
Proof.
  unfold count_pair. simpl. rewrite filter_app, length_app, filter_cons.
  destruct (same_pair i h r).
  - rewrite decide_True by reflexivity. reflexivity.
  - rewrite decide_False by discriminate. simpl. lia.
Qed.

(** One INSERT of a pair with both parts present, in a registered
    domain: afterwards the table has the pair once. *)
Lemma insert_present_pair_once (dom i h : string) (d : db) :
  fk_ok dom d = true ->
  count_pair (Some i) (Some h) d <= 1 ->
  count_pair (Some i) (Some h)
    (match insert_data (Some i) (Some (HostStr h)) dom d with
     | inl d' => d'
     | inr _ => d
     end) = 1
  /\ (count_pair (Some i) (Some h) d = 1 ->
      insert_data (Some i) (Some (HostStr h)) dom d = inr IntegrityError).
Proof.
  intros Hfk Hle. unfold insert_data.
  destruct (violates_unique (Some i) (Some h) (data d)) eqn:Hv.
  - apply violates_unique_count in Hv. split; [lia | reflexivity].
  - assert (Hz : count_pair (Some i) (Some h) d = 0).
    { destruct (Nat.eq_dec (count_pair (Some i) (Some h) d) 0) as [ | Hn];
        [assumption | ].
      assert (Hp : 0 < count_pair (Some i) (Some h) d) by lia.
      apply violates_unique_count in Hp. congruence. }
    rewrite Hfk. simpl. split; [ | lia].
    rewrite count_pair_snoc. unfold same_pair. simpl.
    rewrite !bool_decide_eq_true_2 by reflexivity. simpl.
    unfold count_pair in *. simpl. lia.
Qed.

Lemma fk_ok_insert (i : option string) (h : option host_val) (dom : string)
    (d d' : db) :
  insert_data i h dom d = inl d' -> fk_ok dom d' = true.
Proof.
  intros H. apply insert_data_inl in H as (hn & _ & _ & Hfk & ->).
  exact Hfk.
Qed.

(** A pair with both parts present, put twice into one batch, is in the
    table once afterwards. *)
Lemma build_db_same_pair_batch (self_domain i h : string) (d : db) :
  fk_ok (Py.replace_dot self_domain) d = true ->
  count_pair (Some i) (Some h) d <= 1 ->
  count_pair (Some i) (Some h)
    (fst (_build_db self_domain
            [(Some (HostStr h), Some i); (Some (HostStr h), Some i)] d)) = 1.
Proof.
  intros Hfk Hle. unfold _build_db. cbn [insert_loop].
  destruct (insert_present_pair_once _ i h d Hfk Hle) as [H1 _].
  destruct (insert_data (Some i) (Some (HostStr h))
              (Py.replace_dot self_domain) d)
    as [d1 | e1] eqn:E1; [ | exact H1].
  destruct (insert_present_pair_once (Py.replace_dot self_domain) i h d1)
    as [_ H2]; [now apply fk_ok_insert in E1 | lia | ].
  rewrite (H2 H1). exact H1.
Qed.

(** The same for two calls, each with the pair alone. *)
Lemma build_db_same_pair_calls (self_domain i h : string) (d : db) :
  fk_ok (Py.replace_dot self_domain) d = true ->
  count_pair (Some i) (Some h) d <= 1 ->
  count_pair (Some i) (Some h)
    (fst (_build_db self_domain [(Some (HostStr h), Some i)]
            (fst (_build_db self_domain [(Some (HostStr h), Some i)] d)))) = 1.
Proof.
  intros Hfk Hle. unfold _build_db. cbn [insert_loop].
  destruct (insert_present_pair_once _ i h d Hfk Hle) as [H1 H1'].
  destruct (insert_data (Some i) (Some (HostStr h))
              (Py.replace_dot self_domain) d)
    as [d1 | e1] eqn:E1; cbn [fst].
  - destruct (insert_present_pair_once (Py.replace_dot self_domain) i h d1)
      as [_ H2]; [now apply fk_ok_insert in E1 | lia | ].
    rewrite (H2 H1). exact H1.
  - rewrite E1. exact H1.
Qed.

(** C1, on the code: the batch [a, a, b] into an empty table. The second
    pair is refused by UNIQUE(ip, hostname), the handler around the whole
    loop prints it, and the third pair, which nothing speaks against, is
    not inserted. *)
Theorem build_db_drops_pairs_behind_violation :
  _build_db "example.com" [pair_a; pair_a; pair_b] d_example
  = (Db ["example_com"]
        [Row 1 (Some "1.1.1.1") (Some "a.example.com") None None
             (Some "example_com")],
     [IssueWith (Some "1.1.1.1") (Some (HostStr "a.example.com"))
                "example_com"])
  /\ count_pair (Some "2.2.2.2") (Some "b.example.com")
       (fst (_build_db "example.com" [pair_a; pair_a; pair_b] d_example)) = 0
  /\ count_pair (Some "2.2.2.2") (Some "b.example.com")
       (fst (_build_db "example.com" [pair_b] d_example)) = 1.
Proof. repeat split; vm_compute; reflexivity. Qed.

(** C5, on the code: a file with the line [a.example.com], parsed twice
    while the name does not resolve. Each run inserts the pair
    (a.example.com, None); UNIQUE(ip, hostname) does not compare a NULL
    ip, and the table ends with two rows for the one pair. *)
Theorem aggregate_twice_null_ip_two_rows :
  let run := Extractor.aggregate no_forward no_reverse "example.com"
               [["a.example.com"]] in
  fst (Extractor._reverse_ip_lookup no_forward no_reverse "example.com"
         ["a.example.com"])
  = [(Some (HostStr "a.example.com"), None)]
  /\ count_pair None (Some "a.example.com") (fst (run (Db [] []))) = 1
  /\ count_pair None (Some "a.example.com")
       (fst (run (fst (run (Db [] []))))) = 2
  /\ snd (run (fst (run (Db [] [])))) = [].
Proof. repeat split; vm_compute; reflexivity. Qed.

End StoreFacts.

(** ** The patterns of the extractor *)

Section RegexFacts.
Import Regex.

Lemma upto_width (m : text -> list text) (w : nat) :
  (forall s rest, In rest (m s) -> length s <= length rest + w) ->
  forall n s rest, In rest (upto m n s) -> length s <= length rest + n * w.
Proof.
  intros Hm. induction n as [ | n IH]; intros s rest Hin; simpl in *.
  - destruct Hin as [<- | []]. lia.
  - apply in_app_or in Hin. destruct Hin as [Hin | [<- | []]]; [ | lia].
    apply in_flat_map in Hin. destruct Hin as (mid & Hmid & Hrest).
    apply Hm in Hmid. apply IH in Hrest. lia.
Qed.

Lemma times_width (m : text -> list text) (w : nat) :
  (forall s rest, In rest (m s) -> length s <= length rest + w) ->
  forall n s rest, In rest (times m n s) -> length s <= length rest + n * w.
Proof.
  intros Hm. induction n as [ | n IH]; intros s rest Hin; simpl in *.
  - destruct Hin as [<- | []]. lia.
  - apply in_flat_map in Hin. destruct Hin as (mid & Hmid & Hrest).
    apply Hm in Hmid. apply IH in Hrest. lia.
Qed.

(** A star-free pattern never consumes more than its width. *)
Lemma matches_width (r : regex) :
  star_free r = true ->
  forall s rest, In rest (matches r s) -> length s <= length rest + width r.
Proof.
  induction r as [p | r1 IH1 r2 IH2 | r1 IH1 r2 IH2 | r1 IH1 | n r1 IH1
                  | n r1 IH1 | r1 IH1]; simpl; intros Hsf s rest Hin.
  - destruct s as [ | c t]; [destruct Hin | ].
    destruct (p c); [ | destruct Hin].
    destruct Hin as [<- | []]. simpl. lia.
  - apply andb_prop in Hsf. destruct Hsf as [H1 H2].
    apply in_flat_map in Hin. destruct Hin as (mid & Hmid & Hrest).
    apply (IH1 H1) in Hmid. apply (IH2 H2) in Hrest. lia.
  - apply andb_prop in Hsf. destruct Hsf as [H1 H2].
    apply in_app_or in Hin. destruct Hin as [Hin | Hin].
    + apply (IH1 H1) in Hin. lia.
    + apply (IH2 H2) in Hin. lia.
  - apply in_app_or in Hin. destruct Hin as [Hin | [<- | []]]; [ | lia].
    apply (IH1 Hsf) in Hin. lia.
  - apply (upto_width _ _ (IH1 Hsf)) in Hin. lia.
  - apply (times_width _ _ (IH1 Hsf)) in Hin. lia.
  - discriminate.
Qed.

(** What is left after a match is never longer than the text. *)
Lemma matches_shorter (r : regex) :
  forall s rest, In rest (matches r s) -> length rest <= length s.
Proof.
  induction r as [p | r1 IH1 r2 IH2 | r1 IH1 r2 IH2 | r1 IH1 | n r1 IH1
                  | n r1 IH1 | r1 IH1]; simpl; intros s rest Hin.
  - destruct s as [ | c t]; [destruct Hin | ].
    destruct (p c); [ | destruct Hin].
    destruct Hin as [<- | []]. simpl. lia.
  - apply in_flat_map in Hin. destruct Hin as (mid & Hmid & Hrest).
    apply IH1 in Hmid. apply IH2 in Hrest. lia.
  - apply in_app_or in Hin. destruct Hin as [Hin | Hin]; auto.
  - apply in_app_or in Hin. destruct Hin as [Hin | [<- | []]]; auto.
  - revert s rest Hin. induction n as [ | n IHn]; simpl; intros s rest Hin.
    + destruct Hin as [<- | []]. lia.
    + apply in_app_or in Hin. destruct Hin as [Hin | [<- | []]]; [ | lia].
      apply in_flat_map in Hin. destruct Hin as (mid & Hmid & Hrest).
      apply IH1 in Hmid. apply IHn in Hrest. lia.
  - revert s rest Hin. induction n as [ | n IHn]; simpl; intros s rest Hin.
    + destruct Hin as [<- | []]. lia.
    + apply in_flat_map in Hin. destruct Hin as (mid & Hmid & Hrest).
      apply IH1 in Hmid. apply IHn in Hrest. lia.
  - revert Hin. generalize (length s) at 1. intros fuel. revert s rest.
    induction fuel as [ | k IHk]; simpl; intros s rest Hin.
    + destruct Hin as [<- | []]. lia.
    + destruct Hin as [<- | Hin]; [lia | ].
      apply in_flat_map in Hin. destruct Hin as (mid & Hmid & Hrest).
      apply IH1 in Hmid. apply IHk in Hrest. lia.
Qed.

(** A body that consumes a character finds nothing in the empty text. *)
Lemma consuming_nil (m : text -> list text) (s : text) :
  (forall t rest, In rest (m t) -> length rest < length t) ->
  length s <= 0 -> m s = [].
Proof.
  intros Hm Hs. destruct (m s) as [ | x l] eqn:E; [reflexivity | ].
  assert (Hx : In x (m s)) by (rewrite E; now left).
  apply Hm in Hx. lia.
Qed.

(** The fuel of a lazy star is never what ends the loop, as long as its
    body consumes a character: any larger amount gives the same list. *)
Lemma lazy_star_fuel (m : text -> list text) :
  (forall s rest, In rest (m s) -> length rest < length s) ->
  forall n k s, length s <= n -> length s <= k ->
    lazy_star m n s = lazy_star m k s.
Proof.
  intros Hm. induction n as [ | n IH]; intros k s Hn Hk.
  - destruct k as [ | k]; simpl; [reflexivity | ].
    now rewrite (consuming_nil m s Hm Hn).
  - destruct k as [ | k]; simpl.
    + now rewrite (consuming_nil m s Hm Hk).
    + f_equal.
      assert (Hall : forall rest, In rest (m s) ->
                lazy_star m n rest = lazy_star m k rest).
      { intros rest Hin. apply Hm in Hin. apply IH; lia. }
      revert Hall. induction (m s) as [ | x l IHl]; simpl; intros Hall;
        [reflexivity | ].
      rewrite (Hall x (or_introl eq_refl)). f_equal.
      apply IHl. intros rest Hin. apply Hall. now right.
Qed.

(** The star of [hostname_reg] has the body [\.label]: it consumes the
    dot, so the fuel [matches] gives it is enough on every text. *)
Lemma hostname_star_fuel (k : nat) (s : text) :
  length s <= k ->
  lazy_star (matches (Seq (lit "."%char) label)) k s
  = matches (LazyStar (Seq (lit "."%char) label)) s.
Proof.
  intros Hk. simpl matches at 2.
  apply lazy_star_fuel; [ | exact Hk | lia].
  intros t rest Hin. change (In rest (flat_map (matches label)
                                        (matches (lit "."%char) t))) in Hin.
  apply in_flat_map in Hin. destruct Hin as (mid & Hmid & Hrest).
  apply matches_shorter in Hrest. unfold lit in Hmid. cbn [matches] in Hmid.
  destruct t as [ | c t']; [destruct Hmid | ].
  destruct (Ascii.eqb "."%char c); [ | destruct Hmid].
  destruct Hmid as [<- | []]. simpl. lia.
Qed.

Lemma digit_in_digits (c : ascii) : digit c = true -> In c digits.
Proof.
  destruct c as [[] [] [] [] [] [] [] []]; vm_compute; intros H;
    try discriminate H; repeat (first [left; reflexivity | right]).
Qed.

Lemma digit_strings_complete (s : text) :
  forallb digit s = true -> In s (digit_strings (length s)).
Proof.
  induction s as [ | c t IH]; intros H.
  - now left.
  - cbn [forallb] in H. apply andb_prop in H. destruct H as [Hc Ht].
    cbn [length digit_strings].
    apply in_flat_map. exists c. split; [now apply digit_in_digits | ].
    apply in_map. now apply IH.
Qed.

(** The octet pattern against every string of one to three digits. *)
Lemma octet_check_upto3 :
  forallb octet_check
          (digit_strings 1 ++ digit_strings 2 ++ digit_strings 3) = true.
Proof. vm_compute. reflexivity. Qed.

(** C9, as the code has it: a digit string is matched in full by the
    octet sub-pattern if and only if it has at most three digits and its
    decimal value is at most 255; leading zeros count as digits (099 and
    007 match, 0007 does not). *)
Theorem octet_fullmatch_iff (s : text) :
  digit_string s ->
  fullmatch octet s = true <-> length s <= 3 /\ decimal_value s <= 255.
Proof.
  intros [Hne Hdig].
  destruct (le_lt_dec (length s) 3) as [Hle | Hgt].
  - assert (Hin : In s (digit_strings 1 ++ digit_strings 2 ++ digit_strings 3)).
    { pose proof (digit_strings_complete s Hdig) as Hs.
      destruct s as [ | c1 [ | c2 [ | c3 [ | c4 t]]]];
        [congruence | | | | simpl in Hle; lia];
        simpl length in Hs; rewrite !in_app_iff; auto. }
    pose proof (proj1 (forallb_forall _ _) octet_check_upto3 s Hin) as Hchk.
    unfold octet_check in Hchk. apply eqb_prop in Hchk. rewrite Hchk.
    rewrite andb_true_iff, !Nat.leb_le. reflexivity.
  - split; [ | lia].
    intros Hfull. unfold fullmatch in Hfull.
    apply existsb_exists in Hfull. destruct Hfull as (rest & Hin & Hnil).
    destruct rest; [ | discriminate].
    apply (matches_width octet eq_refl) in Hin. simpl in Hin. lia.
Qed.

(** The characterisation at 099. *)
Lemma octet_fullmatch_iff_witness :
  fullmatch octet (list_ascii_of_string "099") = true <->
  length (list_ascii_of_string "099") <= 3
  /\ decimal_value (list_ascii_of_string "099") <= 255.
Proof.
  apply (octet_fullmatch_iff (list_ascii_of_string "099")).
  split; [discriminate | reflexivity].
Defined.

(** C9 as written fails on 0007: a digit string whose value, 7, is
    between 0 and 255, and which the sub-pattern does not match in full. *)
Lemma octet_rejects_0007 :
  digit_string (list_ascii_of_string "0007")
  /\ ~ (fullmatch octet (list_ascii_of_string "0007") = true <->
        0 <= decimal_value (list_ascii_of_string "0007") <= 255).
Proof.
  split.
  - split; [discriminate | reflexivity].
  - intros [_ H].
    assert (Hv : 0 <= decimal_value (list_ascii_of_string "0007") <= 255)
      by (vm_compute; split; repeat constructor).
    apply H in Hv. vm_compute in Hv. discriminate Hv.
Qed.

End RegexFacts.

(** ** The extractor *)

Section ExtractorFacts.
Import Store Regex Extractor.

Variable gethostbyname : string -> option string.
Variable gethostbyaddr : string -> option hostent.

(** Both patterns are tried with [match], at the start of the line. *)
Lemma hostname_not_at_line_start :
  re_match (hostname_reg "example.com") "1.2.3.4 host.example.com" = None.
Proof. vm_compute. reflexivity. Qed.

Lemma ip_at_line_start :
  re_match ip_reg "1.2.3.4 host.example.com" = Some "1.2.3.4".
Proof. vm_compute. reflexivity. Qed.

(** C3, on the code: for the line [1.2.3.4 host.example.com] and the
    domain example.com the hostname pattern finds nothing, the IP pattern
    finds 1.2.3.4, and the extractor asks the resolver for the name of
    1.2.3.4; the pair it emits has what the resolver answered in the place
    of the hostname, or nothing there. *)
Theorem extract_line_ip_first_does_reverse_lookup :
  extract_line gethostbyname gethostbyaddr "example.com"
               "1.2.3.4 host.example.com"
  = (match gethostbyaddr "1.2.3.4" with
     | Some e => [(Some (HostTuple e), Some "1.2.3.4")]
     | None => [(None, Some "1.2.3.4")]
     end,
     [Reverse "1.2.3.4"]).
Proof.
  unfold extract_line.
  rewrite hostname_not_at_line_start, ip_at_line_start.
  unfold lookups. destruct (gethostbyaddr "1.2.3.4"); reflexivity.
Qed.

(** With the hostname first, the hostname pattern matches and the IP
    pattern does not: the address comes from the resolver. *)
Lemma extract_line_host_first :
  extract_line gethostbyname gethostbyaddr "example.com"
               "host.example.com 1.2.3.4"
  = ([(Some (HostStr "host.example.com"), gethostbyname "host.example.com")],
     [Forward "host.example.com"]).
Proof.
  unfold extract_line.
  replace (re_match (hostname_reg "example.com") "host.example.com 1.2.3.4")
    with (Some "host.example.com") by (vm_compute; reflexivity).
  replace (re_match ip_reg "host.example.com 1.2.3.4")
    with (@None string) by (vm_compute; reflexivity).
  unfold lookups. destruct (gethostbyname "host.example.com"); reflexivity.
Qed.

End ExtractorFacts.

(** ** The order of the rows *)

Section ScanFacts.
Import Store.

Lemma index_insert_perm (x : nat * row) (l : list (nat * row)) :
  index_insert x l ≡ₚ x :: l.
Proof.
  induction l as [ | y t IH]; cbn [index_insert]; [reflexivity | ].
  destruct (index_leb (snd x) (snd y)); [reflexivity | ].
  rewrite IH. apply perm_swap.
Qed.

Lemma index_order_perm (l : list (nat * row)) : index_order l ≡ₚ l.
Proof.
  induction l as [ | x t IH]; cbn [index_order fold_right]; [reflexivity | ].
  rewrite index_insert_perm. fold (index_order t). now rewrite IH.
Qed.

Lemma number_from_elem (rows : list row) (i j : nat) (r : row) :
  (j, r) ∈ number_from i rows <-> exists k, j = i + k /\ rows !! k = Some r.
Proof.
  revert i. induction rows as [ | x t IH]; intros i; cbn [number_from].
  - split; [intros H; inversion H | intros (k & _ & H); discriminate H].
  - rewrite elem_of_cons, IH. split.
    + intros [[= -> ->] | (k & -> & Hk)].
      * exists 0. split; [lia | reflexivity].
      * exists (S k). split; [lia | exact Hk].
    + intros ([ | k] & -> & Hk).
      * left. cbn in Hk. injection Hk as ->. f_equal. lia.
      * right. exists k. split; [lia | exact Hk].
Qed.

(** DISTINCT keeps every value, once. *)
Lemma distinct_from_spec {A} `{EqDecision A} (l seen : list A) :
  (forall x, x ∈ distinct_from seen l <-> x ∈ l /\ x ∉ seen)
  /\ NoDup (distinct_from seen l).
Proof.
  revert seen. induction l as [ | y t IH]; intros seen; cbn [distinct_from].
  - split; [ | constructor]. intros x. split; [intros H0 | intros [H0 _]];
      inversion H0.
  - destruct (decide (y ∈ seen)) as [Hy | Hy].
    + destruct (IH seen) as [IH1 IH2]. split; [ | exact IH2].
      intros x. rewrite IH1, elem_of_cons. split; [tauto | ].
      intros [[-> | Hx] Hn]; [contradiction | auto].
    + destruct (IH (y :: seen)) as [IH1 IH2]. split.
      * intros x. rewrite !elem_of_cons, IH1, not_elem_of_cons.
        destruct (decide (x = y)) as [-> | Hne]; tauto.
      * constructor; [ | exact IH2]. rewrite IH1, not_elem_of_cons. tauto.
Qed.

Lemma elem_of_distinct {A} `{EqDecision A} (l : list A) (x : A) :
  x ∈ distinct l <-> x ∈ l.
Proof.
  unfold distinct. rewrite (proj1 (distinct_from_spec l [])).
  split; [tauto | ]. intros Hx. split; [exact Hx | ]. intros H0. inversion H0.
Qed.


(** A plan meets every row of the table, each at its place. *)
Lemma visit_elem (p : plan) (rows : list row) (i : nat) (r : row) :
  (i, r) ∈ visit p rows <-> rows !! i = Some r.
Proof.
  assert (H : (i, r) ∈ numbered rows <-> rows !! i = Some r).
  { unfold numbered. rewrite number_from_elem. split.
    - intros (k & -> & Hk). exact Hk.
    - intros Hi. exists i. auto. }
  destruct p; cbn [visit]; [exact H | ].
  now rewrite index_order_perm.
Qed.

Lemma scan_elem (p : plan) (rows : list row) (r : row) :
  r ∈ scan p rows <-> r ∈ rows.
Proof.
  unfold scan. rewrite list_elem_of_fmap. split.
  - intros ([i r'] & -> & Hin). apply visit_elem in Hin.
    apply list_elem_of_lookup. eauto.
  - intros Hin. apply list_elem_of_lookup in Hin. destruct Hin as (i & Hi).
    exists (i, r). split; [reflexivity | ]. now apply visit_elem.
Qed.

(** The order of the index is a total preorder on the rows. *)
Lemma string_compare_refl (s : string) : String.compare s s = Eq.
Proof.
  induction s as [ | c s IH]; cbn [String.compare]; [reflexivity | ].
  unfold Ascii.compare. now rewrite N.compare_refl.
Qed.

Lemma string_compare_lt_trans (a b c : string) :
  String.compare a b = Lt -> String.compare b c = Lt ->
  String.compare a c = Lt.
Proof.
  revert b c. induction a as [ | x a IH]; intros [ | y b] [ | z c];
    cbn [String.compare]; try discriminate; try reflexivity.
  unfold Ascii.compare.
  destruct (N.compare_spec (N_of_ascii x) (N_of_ascii y)) as [Exy | Lxy | Gxy];
    destruct (N.compare_spec (N_of_ascii y) (N_of_ascii z))
      as [Eyz | Lyz | Gyz];
    try discriminate; intros H1 H2.
  - rewrite Exy, Eyz, N.compare_refl. eauto.
  - rewrite Exy. now apply N.compare_lt_iff in Lyz as ->.
  - rewrite <- Eyz. now apply N.compare_lt_iff in Lxy as ->.
  - assert (L : (N_of_ascii x < N_of_ascii z)%N) by lia.
    now apply N.compare_lt_iff in L as ->.
Qed.

Lemma null_first_refl (a : option string) : null_first a a = Eq.
Proof. destruct a; cbn; [apply string_compare_refl | reflexivity]. Qed.

Lemma null_first_eq (a b : option string) : null_first a b = Eq -> a = b.
Proof.
  destruct a, b; cbn; try discriminate; [ | reflexivity].
  intros H. f_equal. now apply String.compare_eq_iff.
Qed.

Lemma null_first_lt_trans (a b c : option string) :
  null_first a b = Lt -> null_first b c = Lt -> null_first a c = Lt.
Proof.
  destruct a, b, c; cbn; try discriminate; try reflexivity.
  apply string_compare_lt_trans.
Qed.

Lemma null_first_antisym (a b : option string) :
  null_first a b = CompOpp (null_first b a).
Proof.
  destruct a, b; cbn; try reflexivity. apply String.compare_antisym.
Qed.

Lemma index_leb_refl (r : row) : index_leb r r = true.
Proof. unfold index_leb. now rewrite !null_first_refl. Qed.

Lemma index_leb_total (a b : row) :
  index_leb a b = false -> index_leb b a = true.
Proof.
  unfold index_leb.
  rewrite (null_first_antisym (ip b) (ip a)),
    (null_first_antisym (hostname b) (hostname a)).
  destruct (null_first (ip a) (ip b)); cbn; try discriminate; try reflexivity.
  destruct (null_first (hostname a) (hostname b)); cbn;
    try discriminate; reflexivity.
Qed.

Lemma index_leb_trans (a b c : row) :
  index_leb a b = true -> index_leb b c = true -> index_leb a c = true.
Proof.
  unfold index_leb.
  destruct (null_first (ip a) (ip b)) eqn:Eab; try discriminate;
    destruct (null_first (ip b) (ip c)) eqn:Ebc; try discriminate.
  - apply null_first_eq in Eab. apply null_first_eq in Ebc.
    rewrite Eab, Ebc, null_first_refl.
    destruct (null_first (hostname a) (hostname b)) eqn:Hab; try discriminate;
      destruct (null_first (hostname b) (hostname c)) eqn:Hbc;
      try discriminate; intros _ _.
    + apply null_first_eq in Hab. apply null_first_eq in Hbc.
      now rewrite Hab, Hbc, null_first_refl.
    + apply null_first_eq in Hab. now rewrite Hab, Hbc.
    + apply null_first_eq in Hbc. now rewrite <- Hbc, Hab.
    + now rewrite (null_first_lt_trans _ _ _ Hab Hbc).
  - apply null_first_eq in Eab. now rewrite Eab, Ebc.
  - apply null_first_eq in Ebc. now rewrite <- Ebc, Eab.
  - now rewrite (null_first_lt_trans _ _ _ Eab Ebc).
Qed.

(** The rows come out of the index in its order. *)
Lemma index_insert_sorted (x : nat * row) (l : list (nat * row)) :
  StronglySorted (fun a b => index_leb (snd a) (snd b) = true) l ->
  StronglySorted (fun a b => index_leb (snd a) (snd b) = true)
                 (index_insert x l).
Proof.
  induction 1 as [ | y t Ht IH Hy]; cbn [index_insert].
  - constructor; constructor.
  - destruct (index_leb (snd x) (snd y)) eqn:E.
    + constructor; [constructor; assumption | ].
      constructor; [exact E | ].
      eapply Forall_impl; [exact Hy | ].
      intros z Hz. cbn in Hz. now apply (index_leb_trans _ (snd y)).
    + constructor; [exact IH | ].
      rewrite index_insert_perm. constructor; [ | exact Hy].
      now apply index_leb_total.
Qed.

Lemma index_order_sorted (l : list (nat * row)) :
  StronglySorted (fun a b => index_leb (snd a) (snd b) = true)
                 (index_order l).
Proof.
  induction l as [ | x t IH]; cbn [index_order fold_right]; [constructor | ].
  now apply index_insert_sorted.
Qed.

(** Two tables whose rows agree, place by place, on ip and hostname are
    met in the same order. *)
Section SameKeys.

Variable R : row -> row -> Prop.
Hypothesis R_keys :
  forall a b, R a b -> ip a = ip b /\ hostname a = hostname b.

Lemma index_insert_Forall2 (x x' : nat * row) (l l' : list (nat * row)) :
  fst x = fst x' -> R (snd x) (snd x') ->
  Forall2 (fun a b => fst a = fst b /\ R (snd a) (snd b)) l l' ->
  Forall2 (fun a b => fst a = fst b /\ R (snd a) (snd b))
          (index_insert x l) (index_insert x' l').
Proof.
  intros Hx HR H. induction H as [ | y y' t t' [Hy HRy] Ht IH];
    cbn [index_insert].
  - constructor; [auto | constructor].
  - assert (E : index_leb (snd x) (snd y) = index_leb (snd x') (snd y')).
    { unfold index_leb. destruct (R_keys _ _ HR) as [-> ->].
      destruct (R_keys _ _ HRy) as [-> ->]. reflexivity. }
    rewrite E. destruct (index_leb (snd x') (snd y')).
    + constructor; [auto | ]. constructor; auto.
    + constructor; auto.
Qed.

Lemma number_from_Forall2 (i : nat) (rows rows' : list row) :
  Forall2 R rows rows' ->
  Forall2 (fun a b => fst a = fst b /\ R (snd a) (snd b))
          (number_from i rows) (number_from i rows').
Proof.
  intros H. revert i. induction H as [ | r r' t t' Hr Ht IH]; intros i;
    cbn [number_from]; constructor; auto.
Qed.

Lemma visit_Forall2 (p : plan) (rows rows' : list row) :
  Forall2 R rows rows' ->
  Forall2 (fun a b => fst a = fst b /\ R (snd a) (snd b))
          (visit p rows) (visit p rows').
Proof.
  intros H. apply (number_from_Forall2 0) in H. fold (numbered rows) in H.
  fold (numbered rows') in H.
  destruct p; cbn [visit]; [exact H | ].
  induction H as [ | x x' t t' [Hx HR] Ht IH]; cbn [index_order fold_right];
    [constructor | ].
  now apply index_insert_Forall2.
Qed.

End SameKeys.

End ScanFacts.

(** ** The enricher *)

Section EnricherFacts.
Import Store Enricher Samples.

(** C8: for every identifier, both requests are made, the HTTP one first;
    a request that fails with an [Exception] (a timeout, a refused
    connection and a TLS error are such) leaves [None] for its own
    protocol only and is logged, and the function returns the identifier
    with the pair of results. *)
Theorem get_headers_returns
    (requests_get : string -> Py.outcome string failure) (ident : string) :
  (forall e, requests_get ("http://" +:+ ident) = Py.Raised e ->
             is_Exception e = true) ->
  let http := requests_get ("http://" +:+ ident) in
  let https := requests_get ("https://" +:+ ident) in
  let run := _get_headers requests_get ident in
  f_out run = Py.Returned (ident, (header_of http, header_of https))
  /\ f_urls run = ["http://" +:+ ident; "https://" +:+ ident]
  /\ f_log run
     = (if Py.is_raised http then [NoHttpHeader ident] else [])
       ++ (if Py.is_raised https then [NoHttpsHeader ident] else []).
Proof.
  intros Hexc. cbv zeta. unfold _get_headers, get_https.
  destruct (requests_get ("http://" +:+ ident)) as [h | e] eqn:E1.
  - destruct (requests_get ("https://" +:+ ident)) as [h' | e'];
      simpl; auto.
  - rewrite (Hexc e eq_refl).
    destruct (requests_get ("https://" +:+ ident)) as [h' | e'];
      simpl; auto.
Qed.

(** 9.9.9.9 with plain HTTP timing out: the HTTPS header alone comes
    back, and the timeout is in the log. *)
Lemma get_headers_returns_witness :
  let run := _get_headers http_times_out "9.9.9.9" in
  f_out run = Py.Returned ("9.9.9.9", (None, Some "{'Server': 'nginx'}"))
  /\ f_urls run = ["http://9.9.9.9"; "https://9.9.9.9"]
  /\ f_log run = [NoHttpHeader "9.9.9.9"].
Proof.
  apply (get_headers_returns http_times_out "9.9.9.9").
  intros e H. vm_compute in H. injection H as <-. reflexivity.
Defined.

(** The one case left: an interrupt during the HTTP request is no
    [Exception]; it passes the first handler and the HTTPS request is not
    made. *)
Lemma get_headers_interrupted
    (requests_get : string -> Py.outcome string failure) (ident : string) :
  requests_get ("http://" +:+ ident) = Py.Raised Interrupt ->
  _get_headers requests_get ident
  = Fetch (Py.Raised Interrupt) [] ["http://" +:+ ident].
Proof. intros H. unfold _get_headers. now rewrite H. Qed.

(** Where a statement with LIMIT 1 stops. *)
Lemma first_match_Some (p : plan) (cond : row -> bool) (rows : list row)
    (i : nat) :
  first_match p cond rows = Some i ->
  exists r, rows !! i = Some r /\ cond r = true.
Proof.
  unfold first_match.
  destruct (find (fun ir => cond (snd ir)) (visit p rows)) as [[j r] | ] eqn:E;
    [ | discriminate].
  intros [= <-]. apply find_some in E. destruct E as [Hin Hc].
  exists r. split; [ | exact Hc].
  apply (visit_elem p). now apply list_elem_of_In.
Qed.

Lemma first_match_None (p : plan) (cond : row -> bool) (rows : list row) :
  first_match p cond rows = None ->
  forall r, r ∈ rows -> cond r = false.
Proof.
  unfold first_match.
  destruct (find (fun ir => cond (snd ir)) (visit p rows)) as [[j x] | ] eqn:E;
    [discriminate | ].
  intros _ r Hr. apply list_elem_of_lookup in Hr. destruct Hr as (i & Hi).
  apply (visit_elem p) in Hi. apply list_elem_of_In in Hi.
  exact (find_none _ _ E (i, r) Hi).
Qed.

(** Under a scan of the table the statement stops at the first row, in
    rowid order, that satisfies the WHERE clause. *)
Lemma first_match_table (cond : row -> bool) (rows : list row) (n : nat)
    (r : row) :
  rows !! n = Some r -> cond r = true ->
  (forall m x, m < n -> rows !! m = Some x -> cond x = false) ->
  first_match TableScan cond rows = Some n.
Proof.
  unfold first_match. cbn [visit]. unfold numbered.
  assert (H : forall i,
             rows !! n = Some r -> cond r = true ->
             (forall m x, m < n -> rows !! m = Some x -> cond x = false) ->
             find (fun ir => cond (snd ir)) (number_from i rows)
             = Some (i + n, r)).
  { revert n. induction rows as [ | y t IH]; intros n i Hn Hc Hfirst;
      [discriminate | ].
    cbn [number_from find snd]. destruct n as [ | n].
    - cbn in Hn. injection Hn as ->. rewrite Hc. now rewrite Nat.add_0_r.
    - rewrite (Hfirst 0 y) by (cbn; auto; lia).
      rewrite (IH n (S i)); [f_equal; f_equal; lia | exact Hn | exact Hc | ].
      intros m x Hm Hx. apply (Hfirst (S m) x); [lia | exact Hx]. }
  intros Hn Hc Hfirst. now rewrite (H 0 Hn Hc Hfirst).
Qed.

Lemma first_match_table_first (cond : row -> bool) (rows : list row)
    (n : nat) :
  first_match TableScan cond rows = Some n ->
  forall m x, m < n -> rows !! m = Some x -> cond x = false.
Proof.
  unfold first_match. cbn [visit]. unfold numbered.
  assert (H : forall i j r,
             find (fun ir => cond (snd ir)) (number_from i rows) = Some (j, r) ->
             forall m x, i + m < j -> rows !! m = Some x -> cond x = false).
  { induction rows as [ | y t IH]; intros i j r Hf m x Hm Hx;
      [discriminate | ].
    cbn [number_from find snd] in Hf. destruct (cond y) eqn:Hy.
    - injection Hf as <- _. lia.
    - destruct m as [ | m].
      + cbn in Hx. injection Hx as <-. exact Hy.
      + apply (IH (S i) j r Hf m x); [lia | exact Hx]. }
  destruct (find (fun ir => cond (snd ir)) (number_from 0 rows))
    as [[j r] | ] eqn:E; [ | discriminate].
  intros [= <-] m x Hm Hx. exact (H 0 j r E m x Hm Hx).
Qed.

(** Under the index the statement stops at a row that is not behind any
    other row that satisfies the WHERE clause. *)
Lemma find_sorted_least (cond : row -> bool) (l : list (nat * row))
    (a : nat * row) :
  StronglySorted (fun a b => index_leb (snd a) (snd b) = true) l ->
  find (fun ir => cond (snd ir)) l = Some a ->
  forall y, y ∈ l -> cond (snd y) = true -> index_leb (snd a) (snd y) = true.
Proof.
  induction 1 as [ | b t Ht IH Hb]; [discriminate | ].
  cbn [find]. destruct (cond (snd b)) eqn:Hc.
  - intros [= <-] y Hy _. apply elem_of_cons in Hy.
    destruct Hy as [-> | Hy]; [apply index_leb_refl | ].
    rewrite Forall_forall in Hb. now apply Hb.
  - intros Hf y Hy Hcy. apply elem_of_cons in Hy.
    destruct Hy as [-> | Hy]; [congruence | ]. now apply IH.
Qed.

Lemma first_match_index_least (cond : row -> bool) (rows : list row)
    (n : nat) (r : row) :
  first_match IndexScan cond rows = Some n -> rows !! n = Some r ->
  forall x, x ∈ rows -> cond x = true -> index_leb r x = true.
Proof.
  unfold first_match.
  destruct (find (fun ir => cond (snd ir)) (visit IndexScan rows))
    as [[j r'] | ] eqn:E; [ | discriminate].
  intros [= <-] Hn x Hx Hc.
  assert (Hin : (j, r') ∈ visit IndexScan rows).
  { apply find_some in E. apply list_elem_of_In. tauto. }
  apply visit_elem in Hin. assert (r' = r) as -> by congruence.
  apply list_elem_of_lookup in Hx. destruct Hx as (m & Hm).
  apply (find_sorted_least cond (visit IndexScan rows) (j, r)
           (index_order_sorted _) E (m, x)); [ | exact Hc].
  now apply visit_elem.
Qed.

(** Tables that agree, place by place, on ip and hostname and on the
    WHERE clause stop the statement at the same place. *)
Lemma first_match_related (R : row -> row -> Prop) (p : plan)
    (cond : row -> bool) (rows rows' : list row) :
  (forall a b, R a b -> ip a = ip b /\ hostname a = hostname b) ->
  (forall a b, R a b -> cond a = cond b) ->
  Forall2 R rows rows' ->
  first_match p cond rows = first_match p cond rows'.
Proof.
  intros Hkeys Hcond H. apply (visit_Forall2 R Hkeys p) in H.
  unfold first_match.
  induction H as [ | [i a] [j b] t t' [Hij Hab] Ht IH]; [reflexivity | ].
  cbn [find snd fst] in *. subst j. rewrite (Hcond a b Hab).
  destruct (cond b); [reflexivity | exact IH].
Qed.

Lemma update_limit1_lookup (p : plan) (cond : row -> bool) (f : row -> row)
    (rows : list row) (j : nat) :
  update_limit1 p cond f rows !! j
  = if decide (first_match p cond rows = Some j) then f <$> rows !! j
    else rows !! j.
Proof.
  unfold update_limit1. destruct (first_match p cond rows) as [i | ].
  - rewrite list_lookup_alter. destruct (decide (i = j)) as [-> | Hne].
    + now rewrite decide_True.
    + rewrite decide_False; [reflexivity | congruence].
  - now rewrite decide_False.
Qed.

Lemma update_limit1_none (p : plan) (cond : row -> bool) (f : row -> row)
    (rows : list row) :
  (forall x, x ∈ rows -> cond x = false) -> update_limit1 p cond f rows = rows.
Proof.
  intros H. unfold update_limit1.
  destruct (first_match p cond rows) as [i | ] eqn:E; [ | reflexivity].
  apply first_match_Some in E. destruct E as (r & Hr & Hc).
  rewrite (H r) in Hc; [discriminate | ].
  apply list_elem_of_lookup. eauto.
Qed.

Lemma update_limit1_Forall2 (R : row -> row -> Prop) (p : plan)
    (cond : row -> bool) (f : row -> row) (rows : list row) :
  (forall r, R r r) -> (forall r, cond r = true -> R r (f r)) ->
  Forall2 R rows (update_limit1 p cond f rows).
Proof.
  intros Hrefl Hf. apply Forall2_same_length_lookup_2.
  - unfold update_limit1. destruct (first_match p cond rows);
      [now rewrite length_alter | reflexivity].
  - intros j x y Hx Hy. rewrite update_limit1_lookup, Hx in Hy.
    destruct (decide (first_match p cond rows = Some j)) as [E | _].
    + cbn in Hy. injection Hy as <-. apply Hf.
      apply first_match_Some in E. destruct E as (r & Hr & Hc). congruence.
    + injection Hy as <-. apply Hrefl.
Qed.


Lemma omap_alter_same {A B} (g : A -> option B) (f : A -> A) (i : nat)
    (l : list A) :
  (forall x, g (f x) = g x) -> omap g (alter f i l) = omap g l.
Proof.
  intros H. revert i. induction l as [ | x t IH]; intros [ | i];
    try reflexivity.
  - change (alter f 0 (x :: t)) with (f x :: t).
    cbn [omap list_omap]. now rewrite H.
  - change (alter f (S i) (x :: t)) with (x :: alter f i t).
    cbn [omap list_omap]. cbn [omap list_omap] in IH. now rewrite IH.
Qed.

Lemma omap_related {A B} (R : A -> A -> Prop) (g : A -> option B)
    (l l' : list A) :
  (forall a b, R a b -> g a = g b) -> Forall2 R l l' -> omap g l = omap g l'.
Proof.
  intros Hg H. induction H as [ | a b t t' Hab Ht IH]; [reflexivity | ].
  cbn [omap list_omap]. cbn [omap list_omap] in IH.
  now rewrite (Hg a b Hab), IH.
Qed.

(** An UPDATE of the header columns leaves the ip and domain columns of
    every row as they are, and with them the result of the SELECT of the
    ips and its order. *)
Lemma select_ip_update_limit1 (pl : planner) (dom : string) (p : plan)
    (cond : row -> bool) (http https : option string) (rows : list row)
    (dms dms' : list string) :
  select_ip pl dom
            (Db dms (update_limit1 p cond (set_headers http https) rows))
  = select_ip pl dom (Db dms' rows).
Proof.
  unfold select_ip, scan. cbn [data]. symmetry.
  apply (omap_related (fun a b => ip a = ip b /\ domain a = domain b)).
  - intros a b [Hip Hdom]. unfold in_domain. now rewrite Hip, Hdom.
  - apply Forall2_fmap.
    eapply Forall2_impl;
      [apply (visit_Forall2
                (fun a b => ip a = ip b /\ hostname a = hostname b
                            /\ domain a = domain b)) | ].
    + intros a b (Hip & Hhn & _). auto.
    + apply update_limit1_Forall2; intros; cbn; auto.
    + intros [i a] [j b] [_ (Hip & _ & Hdom)]. auto.
Qed.

Lemma select_ip_ip_wave (pl : planner)
    (grab_header : string -> string * (option string * option string))
    (dom : string) (ids : list string) (d : db) :
  select_ip pl dom (ip_wave pl grab_header dom ids d) = select_ip pl dom d.
Proof.
  unfold ip_wave. generalize (fetch_all grab_header ids). intros l.
  revert d. induction l as [ | kv l IH]; intros d; simpl; [reflexivity | ].
  rewrite IH. unfold update_headers_ip.
  rewrite (select_ip_update_limit1 pl dom _ _ _ _ (data d) (domains d)
             (domains d)).
  now destruct d.
Qed.

(** The list [hostnames] of the second wave is the list [ips] of the first
    one: the values of the ip column. *)
Lemma headers_second_wave_ids (pl : planner)
    (grab_header : string -> string * (option string * option string))
    (self_domain : string) (d : db) :
  hostnames (headers pl grab_header self_domain d)
  = select_ip pl (Py.replace_dot self_domain) d
  /\ hostnames (headers pl grab_header self_domain d)
     = ips (headers pl grab_header self_domain d).
Proof.
  unfold headers. simpl. rewrite select_ip_ip_wave. auto.
Qed.

(** C2, on the code: a table with the one target (1.2.3.4, a.example.com).
    The second wave runs the same SELECT ip as the first one: the
    identifiers it fetches are [1.2.3.4], and a.example.com, the only
    hostname of the domain, is not among them. *)
Theorem headers_second_wave_fetches_ips (pl : planner)
    (grab_header : string -> string * (option string * option string)) :
  hostnames (headers pl grab_header "example.com" d_one_target) = ["1.2.3.4"]
  /\ ~ In "a.example.com"
          (hostnames (headers pl grab_header "example.com" d_one_target)).
Proof.
  destruct (headers_second_wave_ids pl grab_header "example.com" d_one_target)
    as [-> _].
  unfold select_ip. destruct (pl SelectIps).
  - split; [reflexivity | ]. vm_compute. intros [H | []]. discriminate H.
  - split; [reflexivity | ]. vm_compute. intros [H | []]. discriminate H.
Qed.

Lemma sql_eq_Some (a : option string) (s : string) :
  sql_eq a (Some s) = true <-> a = Some s.
Proof.
  destruct a as [x | ]; simpl.
  - rewrite String.eqb_eq. split; congruence.
  - split; discriminate.
Qed.



(** The rows of the with-headers SELECT of the exporter. *)
Lemma headers_elem (pl : planner) (dom : string) (d : db)
    (hr : Exporter.header_row) :
  hr ∈ Exporter.headers pl dom d <->
  exists r, r ∈ data d /\ in_domain dom r = true
            /\ http_headers r <> None /\ https_headers r <> None
            /\ hr = Exporter.HeaderRow (ip r) (hostname r) (http_headers r)
                                       (https_headers r).
Proof.
  unfold Exporter.headers. rewrite elem_of_distinct, list_elem_of_fmap.
  split.
  - intros (r & -> & Hin). apply list_elem_of_filter in Hin.
    destruct Hin as [Hsel Hin]. apply scan_elem in Hin.
    rewrite !andb_true_iff, !bool_decide_eq_true in Hsel.
    exists r. tauto.
  - intros (r & Hin & Hdom & H1 & H2 & ->). exists r. split; [reflexivity | ].
    apply list_elem_of_filter. split; [ | now apply scan_elem].
    rewrite !andb_true_iff, !bool_decide_eq_true. tauto.
Qed.


(** With several rows for the ip, the UPDATE changes one of them, the one
    its plan meets first: that row is selected with [H] and [S]. *)
Lemma update_headers_one_row_selected (pl : planner) (d : db)
    (dom key H S : string) (r : row) :
  r ∈ data d -> where_ip key dom r = true ->
  exists hn,
    Exporter.HeaderRow (Some key) hn (Some H) (Some S)
    ∈ Exporter.headers pl dom
        (update_headers_ip pl (Some H) (Some S) key dom d).
Proof.
  intros Hin Hr.
  destruct (first_match (pl UpdateByIp) (where_ip key dom) (data d))
    as [n | ] eqn:E.
  - destruct (first_match_Some _ _ _ _ E) as (r0 & Hn & H0).
    exists (hostname r0). apply headers_elem.
    exists (set_headers (Some H) (Some S) r0).
    unfold where_ip in H0. apply andb_prop in H0. destruct H0 as [Hip Hdom].
    apply sql_eq_Some in Hip. repeat split.
    + apply list_elem_of_lookup. exists n.
      unfold update_headers_ip. cbn [data].
      rewrite update_limit1_lookup, decide_True by exact E.
      now rewrite Hn.
    + exact Hdom.
    + discriminate.
    + discriminate.
    + cbn. now rewrite Hip.
  - rewrite (first_match_None _ _ _ E r Hin) in Hr. discriminate Hr.
Qed.


End EnricherFacts.

(** ** The indexer *)

Section IndexerFacts.
Import Store Indexer.





Section WithFiles.

Variable glob : string -> list string.
Variable getcwd : string.
Variable join_abs : list string -> string.




End WithFiles.

End IndexerFacts.

Section IndexerExample.
Import Store Indexer Samples.


End IndexerExample.

(** ** The exporter *)

Section ExporterFacts.
Import Store Exporter.
Local Open Scope io_scope.

Variable join_abs : list string -> string.
Variable json_dumps : header_row -> string.

(** Laws of sequencing. *)
Lemma bind_ext {A B} (m : io A) (k1 k2 : A -> io B) (st : fs) :
  (forall x st', k1 x st' = k2 x st') -> bind m k1 st = bind m k2 st.
Proof.
  intros H. unfold bind. destruct (m st) as [[x | e] st']; auto.
Qed.

Lemma bind_assoc {A B C} (m : io A) (k1 : A -> io B) (k2 : B -> io C)
    (st : fs) :
  bind (bind m k1) k2 st = bind m (fun x => bind (k1 x) k2) st.
Proof.
  unfold bind. destruct (m st) as [[x | e] st']; reflexivity.
Qed.

(** Two lists of writes, one run after the other, are one list. *)
Lemma run_steps_app (writable : string -> bool)
    (l1 l2 : list (string * string)) (st : fs) :
  (run_steps writable l1 ;; run_steps writable l2) st
  = run_steps writable (l1 ++ l2) st.
Proof.
  revert st. induction l1 as [ | [p c] t IH]; intros st; cbn [run_steps app].
  - reflexivity.
  - rewrite bind_assoc. apply bind_ext. intros _ st'. apply IH.
Qed.

(** The loop over the rows of the [headers] query is a list of writes. *)
Lemma for_each_run_steps (writable : string -> bool) (output_dir : string)
    (l : list header_row) (st : fs) :
  for_each l (fun r => write_file writable (header_path join_abs output_dir r)
                                  (json_dumps r)) st
  = run_steps writable
      (map (fun r => (header_path join_abs output_dir r, json_dumps r)) l) st.
Proof.
  revert st. induction l as [ | r t IH]; intros st; simpl; [reflexivity | ].
  unfold bind.
  destruct (write_file writable (header_path join_abs output_dir r)
                       (json_dumps r) st) as [[[] | e] st'];
    [apply IH | reflexivity].
Qed.

Lemma bind_ext_l {A B} (m1 m2 : io A) (k : A -> io B) (st : fs) :
  (forall st', m1 st' = m2 st') -> bind m1 k st = bind m2 k st.
Proof.
  intros H. unfold bind. now rewrite H.
Qed.

Lemma bind_ret_r (m : io unit) (st : fs) :
  (m ;; ret tt) st = m st.
Proof.
  unfold bind, ret. destruct (m st) as [[[] | e] st']; reflexivity.
Qed.

(** An optional output is a list of writes, empty when it is not asked
    for. *)
Lemma when_write (writable : string -> bool) (b : bool) (p c : string)
    (st : fs) :
  when b (write_file writable p c) st
  = run_steps writable (if b then [(p, c)] else []) st.
Proof.
  destruct b; cbn [when run_steps]; [ | reflexivity].
  symmetry. apply bind_ret_r.
Qed.

Lemma when_write2 (writable : string -> bool) (b : bool)
    (p1 c1 p2 c2 : string) (st : fs) :
  when b (write_file writable p1 c1 ;; write_file writable p2 c2) st
  = run_steps writable (if b then [(p1, c1); (p2, c2)] else []) st.
Proof.
  destruct b; cbn [when run_steps]; [ | reflexivity].
  apply bind_ext. intros _ st'. symmetry. apply bind_ret_r.
Qed.

(** The body of [dump_to_file], when the queries are answered, is its
    list of writes, run in order. *)
Lemma dump_body_run_steps (writable : string -> bool) (pl : planner)
    (self_domain output_dir : string)
    (dump_ips dump_hostnames dump_headers : bool) (d : db) (st : fs) :
  dump_body join_abs json_dumps writable pl self_domain output_dir
            dump_ips dump_hostnames dump_headers (Py.Returned d) st
  = run_steps writable
      (export_steps join_abs json_dumps pl self_domain output_dir dump_ips
                    dump_hostnames dump_headers d) st.
Proof.
  unfold dump_body, run_queries, bind at 1.
  unfold dump_files, export_steps. cbv zeta.
  rewrite <- run_steps_app.
  etransitivity; [apply bind_ext_l; intros st'; apply when_write | ].
  apply bind_ext. intros _ st1.
  rewrite <- run_steps_app.
  etransitivity; [apply bind_ext_l; intros st'; apply when_write2 | ].
  apply bind_ext. intros _ st2.
  destruct dump_headers; cbn [when run_steps].
  - apply for_each_run_steps.
  - reflexivity.
Qed.


(** Writes that all succeed leave the files they wrote. *)
Lemma run_steps_all_ok (writable : string -> bool)
    (steps : list (string * string)) (st : fs) :
  (forall s, s ∈ steps -> writable (fst s) = true) ->
  run_steps writable steps st = (Py.Returned tt, written steps st).
Proof.
  revert st. induction steps as [ | [p c] t IH]; intros st Hok;
    cbn [run_steps]; [reflexivity | ].
  unfold bind, write_file.
  assert (Hp : writable p = true) by (apply (Hok (p, c)); left).
  rewrite Hp.
  rewrite IH; [reflexivity | ]. intros s Hs. apply Hok. now right.
Qed.

(** A write that fails ends the run: the writes before it are done, the
    ones after it are not. *)
Lemma run_steps_fails (writable : string -> bool)
    (pre post : list (string * string)) (p c : string) (st : fs) :
  (forall s, s ∈ pre -> writable (fst s) = true) ->
  writable p = false ->
  run_steps writable (pre ++ (p, c) :: post) st
  = (Py.Raised (OSError p), written pre st).
Proof.
  intros Hok Hbad. rewrite <- run_steps_app. unfold bind at 1.
  rewrite (run_steps_all_ok writable pre st Hok).
  cbn [run_steps]. unfold bind, write_file. now rewrite Hbad.
Qed.

(** The paths present after a list of writes. *)
Lemma written_lookup (steps : list (string * string)) (st : fs) (p : string) :
  is_Some (written steps st !! p) <->
  is_Some (st !! p) \/ exists c, (p, c) ∈ steps.
Proof.
  unfold written. revert st.
  induction steps as [ | [q c] t IH]; intros st; cbn [fold_left fst snd].
  - split; [tauto | ]. intros [H | (c & Hin)]; [exact H | inversion Hin].
  - rewrite IH, lookup_insert_is_Some. split.
    + intros [[-> | [_ H]] | (c' & Hin)]; eauto.
      * right. exists c. left.
      * right. exists c'. now right.
    + intros [H | (c' & Hin)].
      * destruct (decide (q = p)); tauto.
      * apply elem_of_cons in Hin. destruct Hin as [[= -> ->] | Hin]; eauto.
Qed.




(** C7, as the code has it: when a write of the export fails, the writes
    behind it are not made and the files written before it stay as they
    were written; the failure is printed, and the call returns [None] to
    its caller, the value it also returns after an export without
    failure. *)
Theorem dump_to_file_failure (writable : string -> bool) (pl : planner)
    (self_domain output_dir : string)
    (dump_ips dump_hostnames dump_headers : bool) (d : db) (st : fs)
    (pre post : list (string * string)) (p c : string) :
  export_steps join_abs json_dumps pl self_domain output_dir dump_ips
               dump_hostnames dump_headers d
  = pre ++ (p, c) :: post ->
  (forall s, s ∈ pre -> writable (fst s) = true) ->
  writable p = false ->
  let run := dump_to_file join_abs json_dumps writable pl self_domain
                          output_dir dump_ips dump_hostnames dump_headers
                          (Py.Returned d) st in
  files run = written pre st
  /\ printed run = [FailedToWrite; Exc (OSError p)]
  /\ returned run = Py.Returned tt
  /\ returned run
     = returned (dump_to_file join_abs json_dumps (fun _ => true) pl
                              self_domain output_dir dump_ips dump_hostnames
                              dump_headers (Py.Returned d) st).
Proof.
  intros Hsteps Hok Hbad. cbv zeta. unfold dump_to_file.
  rewrite !dump_body_run_steps, Hsteps.
  rewrite (run_steps_fails writable pre post p c st Hok Hbad).
  rewrite (run_steps_all_ok (fun _ => true)) by reflexivity.
  repeat split; reflexivity.
Qed.


End ExporterFacts.

Section ExporterExamples.
Import Store Exporter Samples.

(** The IP list is written, the hostname list cannot be opened, the
    protocol list is not attempted. *)
Lemma dump_to_file_failure_witness :
  let run := dump_to_file join_slash json_stub hostnames_locked sqlite_plans
                          "example.com" "out" true true false
                          (Py.Returned d_one_target) ∅ in
  files run
  = written [("out/aggregated/aggregated_ips.txt", "1.2.3.4")] ∅
  /\ printed run
     = [FailedToWrite; Exc (OSError "out/aggregated/aggregated_hostnames.txt")]
  /\ returned run = Py.Returned tt
  /\ returned run
     = returned (dump_to_file join_slash json_stub (fun _ => true)
                              sqlite_plans "example.com" "out" true true
                              false (Py.Returned d_one_target) ∅).
Proof.
  apply (dump_to_file_failure join_slash json_stub hostnames_locked
           sqlite_plans "example.com" "out" true true false d_one_target ∅
           [("out/aggregated/aggregated_ips.txt", "1.2.3.4")]
           [("out/aggregated/aggregated_protocol_hostnames.txt",
             "https://a.example.com" +:+ nl +:+ "http://a.example.com")]
           "out/aggregated/aggregated_hostnames.txt" "a.example.com").
  - vm_compute. reflexivity.
  - intros s Hs. apply list_elem_of_singleton in Hs. subst s. reflexivity.
  - reflexivity.
Defined.

(** C7 as written fails: on a disk where nothing can be written the first
    write raises, and what the call hands to its caller is not an error:
    it is the [None] of an export that went through. *)
Lemma dump_to_file_failure_not_reported :
  let failed := dump_to_file join_slash json_stub (fun _ => false)
                             sqlite_plans "example.com" "out" true true false
                             (Py.Returned d_one_target) ∅ in
  let passed := dump_to_file join_slash json_stub (fun _ => true)
                             sqlite_plans "example.com" "out" true true false
                             (Py.Returned d_one_target) ∅ in
  printed failed
  = [FailedToWrite; Exc (OSError "out/aggregated/aggregated_ips.txt")]
  /\ printed passed = []
  /\ Py.is_raised (returned failed) = false
  /\ returned failed = returned passed.
Proof. repeat split; vm_compute; reflexivity. Qed.

(** The target with an HTTP header only: the export with header dumps
    writes no file for it, and the indexer has it with its header. *)
Lemma http_only_target_not_dumped :
  headers sqlite_plans "example_com" d_http_only = []
  /\ files (dump_to_file join_slash json_stub (fun _ => true) sqlite_plans
                         "example.com" "out" false false true
                         (Py.Returned d_http_only) ∅) = ∅
  /\ (Indexer._gen_output no_files "/" join_slash sqlite_plans "example.com"
                          (Some d_http_only)
        ≫= fun idx => idx !! Some "9.9.9.9")
     = Some (Indexer.Entry [Some "a.example.com"] (Some "X") None []).
Proof. repeat split; vm_compute; reflexivity. Qed.

End ExporterExamples.

(** * Further properties of the code *)

(** ** Reading a file in chunks *)

Section ReadFileFacts.
Import Discovery.

Lemma read_loop_concat (size : nat) (lines chunks : list string) :
  concat (read_loop size lines chunks) = chunks ++ lines.
Proof.
  revert chunks. induction lines as [ | line rest IH]; intros chunks;
    cbn [read_loop].
  - cbn [concat]. now rewrite !app_nil_r.
  - destruct (Nat.leb size (length (chunks ++ [line]))).
    + cbn [concat]. rewrite IH. cbn [app]. now rewrite <- app_assoc.
    + rewrite IH. now rewrite <- app_assoc.
Qed.

(** X1: the chunks [_read_file] yields, put one behind the other, are the
    lines of the file, in order: no line is lost, repeated or moved. *)
Theorem read_file_concat (lines : list string) :
  concat (_read_file lines) = lines.
Proof. unfold _read_file. now rewrite read_loop_concat. Qed.

Lemma read_loop_shape (size : nat) (lines chunks : list string) :
  0 < size -> length chunks < size ->
  exists full last,
    read_loop size lines chunks = full ++ [last]
    /\ Forall (fun c => length c = size) full
    /\ length last < size
    /\ length full = (length chunks + length lines) / size.
Proof.
  intros Hpos. revert chunks.
  induction lines as [ | line rest IH]; intros chunks Hlt; cbn [read_loop].
  - exists [], chunks. repeat split; auto.
    cbn [length]. rewrite Nat.add_0_r. symmetry. now apply Nat.div_small.
  - destruct (Nat.leb_spec size (length (chunks ++ [line]))) as [Hfull | Hnot].
    + rewrite length_app in Hfull. cbn [length] in Hfull.
      destruct (IH [] Hpos) as (full & last & Heq & Hall & Hlast & Hlen).
      exists ((chunks ++ [line]) :: full), last. rewrite Heq.
      repeat split; auto.
      * constructor; [ | exact Hall]. rewrite length_app. cbn [length]. lia.
      * cbn [length] in *. rewrite Hlen.
        replace (length chunks + S (length rest))
          with (1 * size + length rest) by lia.
        rewrite Nat.div_add_l by lia. cbn [Nat.add]. reflexivity.
    + destruct (IH (chunks ++ [line]) Hnot)
        as (full & last & Heq & Hall & Hlast & Hlen).
      exists full, last. repeat split; auto.
      rewrite Hlen, length_app. cbn [length]. f_equal. lia.
Qed.

(** X2: [_read_file] yields [n / 10000] chunks of exactly 10000 lines and
    then one last chunk of fewer than 10000 lines, for a file of [n]
    lines. The last chunk is always there: it is empty for an empty file
    and for a file whose length is a multiple of 10000. *)
Theorem read_file_chunks (lines : list string) :
  exists full last,
    _read_file lines = full ++ [last]
    /\ Forall (fun c => length c = 100 * 100) full
    /\ length last < 100 * 100
    /\ length full = length lines / (100 * 100).
Proof.
  unfold _read_file.
  destruct (read_loop_shape chunk_size lines [])
    as (full & last & H1 & H2 & H3 & H4).
  - unfold chunk_size. lia.
  - unfold chunk_size. cbn [length]. lia.
  - exists full, last. repeat split; auto.
Qed.

End ReadFileFacts.

(** ** Finding the scan files *)

Section DiscoveryFacts.
Import Discovery.

Variable isfile : string -> bool.
Variable walk : string -> list (string * list string * list string).
Variable join_abs : list string -> string.

Lemma add_output_file_loop (output_dir : string) (names : list string)
    (acc : list string * list agg_msg) :
  let res := fold_left (add_output_file isfile join_abs output_dir) names acc in
  (forall p, p ∈ fst res ->
     p ∈ fst acc \/ (isfile p = true
                     /\ exists name, name ∈ names
                          /\ (p = join_abs [output_dir; name] \/ p = name)))
  /\ (forall name, FileMissing name ∈ snd res <->
        FileMissing name ∈ snd acc
        \/ (name ∈ names /\ isfile (join_abs [output_dir; name]) = false
            /\ isfile name = false)).
Proof.
  revert acc. induction names as [ | n t IH]; intros acc; cbn [fold_left].
  - cbv zeta. split; [auto | ]. intros name. split; [auto | ].
    intros [H | (H & _)]; [exact H | inversion H].
  - specialize (IH (add_output_file isfile join_abs output_dir acc n)).
    cbv zeta in *. destruct IH as [IH1 IH2]. split.
    + intros p Hp. apply IH1 in Hp. destruct Hp as [Hp | (Hf & name & Hn & Hp)].
      * unfold add_output_file in Hp.
        destruct (isfile (join_abs [output_dir; n])) eqn:E1;
          [ | destruct (isfile n) eqn:E2]; cbn [fst] in Hp.
        -- apply elem_of_app in Hp. destruct Hp as [Hp | Hp]; [now left | ].
           apply list_elem_of_singleton in Hp. subst p. right.
           split; [exact E1 | ]. exists n. split; [left | now left].
        -- apply elem_of_app in Hp. destruct Hp as [Hp | Hp]; [now left | ].
           apply list_elem_of_singleton in Hp. subst p. right.
           split; [exact E2 | ]. exists n. split; [left | now right].
        -- now left.
      * right. split; [exact Hf | ]. exists name. split; [now right | exact Hp].
    + intros name. rewrite IH2. unfold add_output_file.
      destruct (isfile (join_abs [output_dir; n])) eqn:E1;
        [ | destruct (isfile n) eqn:E2]; cbn [snd].
      * split.
        -- intros [H | (Hn & H1 & H2)]; [now left | right].
           split; [now right | auto].
        -- intros [H | (Hn & H1 & H2)]; [now left | right].
           apply elem_of_cons in Hn. destruct Hn as [-> | Hn];
             [congruence | auto].
      * split.
        -- intros [H | (Hn & H1 & H2)]; [now left | right].
           split; [now right | auto].
        -- intros [H | (Hn & H1 & H2)]; [now left | right].
           apply elem_of_cons in Hn. destruct Hn as [-> | Hn];
             [congruence | auto].
      * rewrite elem_of_app, list_elem_of_singleton. split.
        -- intros [[H | H] | (Hn & H1 & H2)].
           ++ now left.
           ++ injection H as ->. right. split; [left | auto].
           ++ right. split; [now right | auto].
        -- intros [H | (Hn & H1 & H2)]; [now left; left | ].
           apply elem_of_cons in Hn. destruct Hn as [-> | Hn].
           ++ left. now right.
           ++ right. auto.
Qed.

Lemma folder_files_are_files (output_dir folder p : string) :
  p ∈ folder_files isfile walk join_abs output_dir folder -> isfile p = true.
Proof.
  unfold folder_files. rewrite list_elem_of_In. intros Hin.
  apply in_flat_map in Hin. destruct Hin as ([[root dirs] files] & _ & Hin).
  apply in_flat_map in Hin. destruct Hin as (f & _ & Hin).
  destruct (isfile (join_abs [root; f])) eqn:E; [ | destruct Hin].
  destruct Hin as [<- | []]. exact E.
Qed.

(** X3: every path [aggregate] puts into [all_files], from the file names
    and from the folders walked, is an existing file; a name of
    [output_files] is reported missing exactly when it is a file neither
    under the output directory nor as given, and such a name adds no
    path. *)
Theorem all_files_exist (output_dir : string)
    (output_files output_folders : list string) :
  let res := all_files isfile walk join_abs output_dir output_files
                       output_folders in
  (forall p, p ∈ fst res -> isfile p = true)
  /\ (forall name, FileMissing name ∈ snd res <->
        name ∈ output_files
        /\ isfile (join_abs [output_dir; name]) = false
        /\ isfile name = false).
Proof.
  cbv zeta. unfold all_files.
  pose proof (add_output_file_loop output_dir output_files ([], [])) as H.
  cbv zeta in H.
  destruct (fold_left (add_output_file isfile join_abs output_dir)
                      output_files ([], [])) as [found msgs].
  cbn [fst snd] in *. destruct H as [H1 H2]. split.
  - intros p Hp. apply elem_of_app in Hp. destruct Hp as [Hp | Hp].
    + apply H1 in Hp. destruct Hp as [Hp | [Hf _]]; [inversion Hp | exact Hf].
    + rewrite list_elem_of_In in Hp. apply in_flat_map in Hp.
      destruct Hp as (folder & _ & Hp). rewrite <- list_elem_of_In in Hp.
      now apply folder_files_are_files in Hp.
  - intros name. rewrite H2. split.
    + intros [H | H]; [inversion H | exact H].
    + auto.
Qed.

End DiscoveryFacts.

(** ** The bulk insert and the two tables *)

Section BulkInsertFacts.
Import Store Constraints Samples.

(** What the INSERT loop does to the table. *)
Lemma insert_loop_rows (dom : string) (ips : list pair) (d d' : db)
    (o : option pair) :
  insert_loop dom ips d = (d', o) ->
  exists added,
    data d' = data d ++ added
    /\ domains d' = domains d
    /\ Forall (fun r => http_headers r = None /\ https_headers r = None
                        /\ domain r = Some dom
                        /\ (option_map HostStr (hostname r), ip r) ∈ ips)
              added
    /\ (o = None -> length added = length ips)
    /\ (o <> None -> length added < length ips).
Proof.
  revert d. induction ips as [ | [h i] rest IH]; intros d Hloop;
    cbn [insert_loop] in Hloop.
  - injection Hloop as <- <-. exists []. rewrite app_nil_r.
    repeat split; auto. congruence.
  - destruct (insert_data i h dom d) as [d1 | e] eqn:Hins.
    + apply insert_data_inl in Hins.
      destruct Hins as (hn & -> & _ & _ & ->).
      destruct (IH _ Hloop) as (added & Hdata & Hdoms & Hall & Hnone & Hsome).
      cbn [data domains] in *.
      exists (Row (next_rowid (data d)) i hn None None (Some dom) :: added).
      rewrite Hdata, <- app_assoc. cbn [app length].
      repeat split; auto.
      * constructor.
        -- cbn. repeat split; auto. left.
        -- eapply Forall_impl; [exact Hall | ].
           intros r (H1 & H2 & H3 & H4). repeat split; auto. now right.
      * intros Ho. apply Hsome in Ho. lia.
    + injection Hloop as <- <-. exists []. rewrite app_nil_r.
      repeat split; auto; [discriminate | cbn [length]; lia].
Qed.

(** X4: [_build_db] only adds rows: the rows in the table stay where they
    are with all their columns, the table of domains is not touched, and
    every row added has NULL headers, the domain of the call and a pair
    of the batch. At most one message is printed, and none exactly when
    every pair of the batch was inserted. *)
Theorem build_db_only_appends (self_domain : string) (ips : list pair)
    (d : db) :
  let res := _build_db self_domain ips d in
  exists added,
    data (fst res) = data d ++ added
    /\ domains (fst res) = domains d
    /\ Forall (fun r => http_headers r = None /\ https_headers r = None
                        /\ domain r = Some (Py.replace_dot self_domain)
                        /\ (option_map HostStr (hostname r), ip r) ∈ ips)
              added
    /\ length (snd res) <= 1
    /\ (snd res = [] <-> length added = length ips).
Proof.
  cbv zeta. unfold _build_db.
  destruct (insert_loop (Py.replace_dot self_domain) ips d) as [d' o] eqn:E.
  destruct (insert_loop_rows _ _ _ _ _ E)
    as (added & H1 & H2 & H3 & H4 & H5).
  exists added. destruct o as [[h i] | ]; cbn [fst snd length].
  - repeat split; auto; [discriminate | ].
    intros Hlen. assert (Hlt : length added < length ips)
      by (apply H5; discriminate). lia.
  - repeat split; auto.
Qed.









End BulkInsertFacts.

Section AggregateFacts.
Import Store Constraints Extractor Samples.

Variable gethostbyname : string -> option string.
Variable gethostbyaddr : string -> option hostent.


End AggregateFacts.

Section AggregateExamples.
Import Store Constraints Extractor Samples.


End AggregateExamples.

(** ** What [aggregate] refuses, and what the extractor emits *)

Section RefusalFacts.
Import Store Constraints Extractor Regex Samples.

Variable gethostbyname : string -> option string.
Variable gethostbyaddr : string -> option hostent.



(** X7: a line on which only the IP pattern matches and whose address
    resolves gives a pair with the triple of [gethostbyaddr] as host.
    When such a line is the first of the first file, [aggregate] stores
    nothing at all: the INSERT of the triple raises, the loop is left, and
    the table has the rows it had. *)
Theorem aggregate_reverse_resolved_first (self_domain line a : string)
    (e : hostent) (more : list string) (files : list (list string))
    (d : db) :
  re_match (hostname_reg self_domain) line = None ->
  re_match ip_reg line = Some a ->
  gethostbyaddr a = Some e ->
  let res := aggregate gethostbyname gethostbyaddr self_domain
                       ((line :: more) :: files) d in
  data (fst res) = data d
  /\ snd res = [IssueWith (Some a) (Some (HostTuple e))
                          (Py.replace_dot self_domain)].
Proof.
  intros Hh Hi Ha. cbv zeta. unfold aggregate, _build_db.
  cbn [flat_map _reverse_ip_lookup]. unfold extract_line.
  rewrite Hh, Hi. unfold lookups. rewrite Ha. cbn [host_truthy orb].
  destruct (_reverse_ip_lookup gethostbyname gethostbyaddr self_domain more)
    as [ps cs].
  cbn [fst app insert_loop insert_data].
  split; [ | reflexivity].
  unfold register_domain.
  now destruct (existsb _ (domains d)).
Qed.

(** The pairs and the lookups of one line. *)
Lemma extract_line_cases (self_domain line : string) :
  let host := re_match (hostname_reg self_domain) line in
  let i := re_match ip_reg line in
  let res := extract_line gethostbyname gethostbyaddr self_domain line in
  length (fst res) <= 1
  /\ length (snd res) <= 1
  /\ (forall p, p ∈ fst res -> fst p <> None \/ snd p <> None)
  /\ (snd res = [] <-> (host = None <-> i = None)).
Proof.
  cbv zeta. unfold extract_line, lookups.
  destruct (re_match (hostname_reg self_domain) line) as [hm | ];
    destruct (re_match ip_reg line) as [im | ]; cbn [option_map].
  - destruct (host_truthy (Some (HostStr hm)) || Py.truthy (Some im));
      cbn [fst snd length]; repeat split; try lia; try discriminate.
    + intros p Hp. apply list_elem_of_singleton in Hp. subst p. left.
      discriminate.
    + intros p Hp. inversion Hp.
  - destruct (gethostbyname hm) as [a | ];
      match goal with
      | |- context [if ?b then _ else _] => destruct b
      end; cbn [fst snd length]; repeat split; try lia; try discriminate;
      try (intros p Hp; first [inversion Hp; fail
                              | apply list_elem_of_singleton in Hp; subst p;
                                left; discriminate]);
      try (intros [H1 H2]; discriminate (H2 eq_refl)).
  - destruct (gethostbyaddr im) as [e | ];
      match goal with
      | |- context [if ?b then _ else _] => destruct b
      end; cbn [fst snd length]; repeat split; try lia; try discriminate;
      try (intros p Hp; first [inversion Hp; fail
                              | apply list_elem_of_singleton in Hp; subst p;
                                right; discriminate]);
      try (intros [H1 H2]; discriminate (H1 eq_refl)).
  - cbn [host_truthy Py.truthy orb fst snd length].
    repeat split; try lia; auto. intros p Hp. inversion Hp.
Qed.

(** X8: the extractor adds at most one pair and asks the resolver at most
    once per line, and asks exactly when one of the two patterns matched
    and the other did not; no pair it returns is (None, None). *)
Theorem reverse_ip_lookup_pairs (self_domain : string) (lines : list string) :
  let res := _reverse_ip_lookup gethostbyname gethostbyaddr self_domain
                                lines in
  length (fst res) <= length lines
  /\ length (snd res) <= length lines
  /\ (forall p, p ∈ fst res -> fst p <> None \/ snd p <> None)
  /\ length (snd res)
     = length (filter (fun line =>
                         ~ (re_match (hostname_reg self_domain) line = None
                            <-> re_match ip_reg line = None))
                      lines).
Proof.
  induction lines as [ | line rest IH]; cbn [_reverse_ip_lookup].
  - cbn. repeat split; auto. intros p Hp. inversion Hp.
  - pose proof (extract_line_cases self_domain line) as Hl. cbv zeta in *.
    destruct (extract_line gethostbyname gethostbyaddr self_domain line)
      as [ps cs].
    destruct (_reverse_ip_lookup gethostbyname gethostbyaddr self_domain rest)
      as [ps' cs'].
    cbn [fst snd] in *. destruct Hl as (L1 & L2 & L3 & L4).
    destruct IH as (I1 & I2 & I3 & I4).
    rewrite !length_app, filter_cons. cbn [length].
    repeat split; try lia.
    + intros p Hp. apply elem_of_app in Hp. destruct Hp; auto.
    + destruct (decide (~ (re_match (hostname_reg self_domain) line = None
                           <-> re_match ip_reg line = None))) as [Hd | Hd].
      * cbn [length]. rewrite <- I4.
        destruct cs as [ | c [ | c' cs'']]; cbn [length] in *; try lia.
        exfalso. apply Hd. now apply L4.
      * rewrite <- I4. apply dec_stable in Hd. apply L4 in Hd. subst cs.
        reflexivity.
Qed.

End RefusalFacts.

Section RefusalExamples.
Import Store Constraints Extractor Regex Samples.


(** A file that begins with an address that resolves. *)
Lemma aggregate_reverse_resolved_first_witness :
  let res := aggregate no_forward reverse_all "example.com"
                       [["1.2.3.4"; "a.example.com"]] d_example in
  data (fst res) = data d_example
  /\ snd res = [IssueWith (Some "1.2.3.4")
                          (Some (HostTuple (HostEnt "dns.example.com" []
                                                    ["1.2.3.4"])))
                          (Py.replace_dot "example.com")].
Proof.
  apply (aggregate_reverse_resolved_first no_forward reverse_all
           "example.com" "1.2.3.4" "1.2.3.4"
           (HostEnt "dns.example.com" [] ["1.2.3.4"])
           ["a.example.com"] [] d_example);
    vm_compute; reflexivity.
Defined.

End RefusalExamples.

(** ** What the two patterns take from a line *)

Section ShapeFacts.
Import Regex Shapes Samples.

Lemma framed_eps : framed (fun s => [s]).
Proof.
  intros s rest. split.
  - intros [<- | []]. exists []. split; [reflexivity | now left].
  - intros (pre & -> & [E | []]). subst pre. now left.
Qed.

Lemma framed_alt (m1 m2 : text -> list text) :
  framed m1 -> framed m2 -> framed (fun s => m1 s ++ m2 s).
Proof.
  intros H1 H2 s rest. rewrite in_app_iff, (H1 s rest), (H2 s rest). split.
  - intros [(pre & E & H) | (pre & E & H)]; exists pre;
      (split; [exact E | apply in_or_app; auto]).
  - intros (pre & E & H). apply in_app_or in H. destruct H; eauto.
Qed.

Lemma framed_seq (m1 m2 : text -> list text) :
  framed m1 -> framed m2 -> framed (fun s => flat_map m2 (m1 s)).
Proof.
  intros H1 H2 s rest. rewrite in_flat_map. split.
  - intros (mid & Hmid & Hrest).
    apply H1 in Hmid. destruct Hmid as (p1 & -> & Hp1).
    apply H2 in Hrest. destruct Hrest as (p2 & -> & Hp2).
    exists (p1 ++ p2). split; [now rewrite app_assoc | ].
    apply in_flat_map. exists p2. split; [ | exact Hp2].
    apply H1. exists p1. auto.
  - intros (pre & -> & H). apply in_flat_map in H.
    destruct H as (mid & Hmid & Hnil).
    apply H1 in Hmid. destruct Hmid as (p1 & -> & Hp1).
    exists (mid ++ rest). split.
    + apply H1. exists p1. split; [now rewrite app_assoc | exact Hp1].
    + apply H2. exists mid. auto.
Qed.

Lemma framed_upto (m : text -> list text) (n : nat) :
  framed m -> framed (upto m n).
Proof.
  intros Hm. induction n as [ | n IH].
  - exact framed_eps.
  - exact (framed_alt _ _ (framed_seq _ _ Hm IH) framed_eps).
Qed.

Lemma framed_times (m : text -> list text) (n : nat) :
  framed m -> framed (times m n).
Proof.
  intros Hm. induction n as [ | n IH].
  - exact framed_eps.
  - exact (framed_seq _ _ Hm IH).
Qed.

(** A pattern without a star looks at nothing but the text it takes. *)
Lemma matches_framed (r : regex) : star_free r = true -> framed (matches r).
Proof.
  induction r as [p | r1 IH1 r2 IH2 | r1 IH1 r2 IH2 | r1 IH1 | n r1 IH1
                  | n r1 IH1 | r1 IH1]; cbn [star_free]; intros Hsf.
  - intros s rest. cbn [matches]. split.
    + destruct s as [ | c t]; [intros [] | ].
      destruct (p c) eqn:Hp; [ | intros []].
      intros [<- | []]. exists [c]. split; [reflexivity | ].
      cbn [matches]. rewrite Hp. now left.
    + intros (pre & -> & H). destruct pre as [ | c t]; [destruct H | ].
      cbn [app]. destruct (p c); [ | destruct H].
      destruct H as [-> | []]. now left.
  - apply andb_prop in Hsf. destruct Hsf as [H1 H2].
    exact (framed_seq _ _ (IH1 H1) (IH2 H2)).
  - apply andb_prop in Hsf. destruct Hsf as [H1 H2].
    exact (framed_alt _ _ (IH1 H1) (IH2 H2)).
  - exact (framed_alt _ _ (IH1 Hsf) framed_eps).
  - exact (framed_upto _ n (IH1 Hsf)).
  - exact (framed_times _ n (IH1 Hsf)).
  - discriminate.
Qed.

(** The text in full match with a sequence splits into two texts in full
    match with its parts. *)
Lemma full_seq (r1 r2 : regex) (w : text) :
  star_free r1 = true ->
  In [] (matches (Seq r1 r2) w) <->
  exists w1 w2, w = w1 ++ w2 /\ In [] (matches r1 w1) /\ In [] (matches r2 w2).
Proof.
  intros H1. cbn [matches]. rewrite in_flat_map. split.
  - intros (mid & Hmid & Hnil).
    apply (matches_framed r1 H1) in Hmid. destruct Hmid as (p1 & -> & Hp1).
    exists p1, mid. auto.
  - intros (w1 & w2 & -> & Hw1 & Hw2). exists w2. split; [ | exact Hw2].
    apply (matches_framed r1 H1). exists w1. auto.
Qed.

Lemma full_lit (c : ascii) (w : text) :
  In [] (matches (lit c) w) <-> w = [c].
Proof.
  unfold lit. cbn [matches]. destruct w as [ | x t].
  - split; [intros [] | discriminate].
  - destruct (Ascii.eqb_spec c x) as [-> | Hne].
    + split.
      * intros [E | []]. now rewrite <- E.
      * intros [= ->]. now left.
    + split; [intros [] | intros [= -> ->]; congruence].
Qed.

Lemma fullmatch_In (r : regex) (w : text) :
  fullmatch r w = true <-> In [] (matches r w).
Proof.
  unfold fullmatch. rewrite existsb_exists. split.
  - intros (rest & Hin & Hnil). destruct rest; [exact Hin | discriminate].
  - intros H. exists []. auto.
Qed.

(** The classes of a pattern bound the characters it takes. *)
Lemma matches_classes (P : ascii -> bool) (r : regex) :
  classes_in P r ->
  forall s rest, In rest (matches r s) ->
    exists pre, s = pre ++ rest /\ forallb P pre = true.
Proof.
  assert (Hseq : forall (m1 m2 : text -> list text),
             (forall s rest, In rest (m1 s) ->
                exists pre, s = pre ++ rest /\ forallb P pre = true) ->
             (forall s rest, In rest (m2 s) ->
                exists pre, s = pre ++ rest /\ forallb P pre = true) ->
             forall s rest, In rest (flat_map m2 (m1 s)) ->
               exists pre, s = pre ++ rest /\ forallb P pre = true).
  { intros m1 m2 H1 H2 s rest Hin. apply in_flat_map in Hin.
    destruct Hin as (mid & Hmid & Hrest).
    apply H1 in Hmid. destruct Hmid as (p1 & -> & Hp1).
    apply H2 in Hrest. destruct Hrest as (p2 & -> & Hp2).
    exists (p1 ++ p2). split; [now rewrite app_assoc | ].
    rewrite forallb_app. now rewrite Hp1, Hp2. }
  assert (Heps : forall s rest : text, In rest [s] ->
             exists pre, s = pre ++ rest /\ forallb P pre = true).
  { intros s rest [<- | []]. exists []. auto. }
  induction r as [p | r1 IH1 r2 IH2 | r1 IH1 r2 IH2 | r1 IH1 | n r1 IH1
                  | n r1 IH1 | r1 IH1]; cbn [classes_in matches]; intros Hc.
  - intros s rest Hin. destruct s as [ | c t]; [destruct Hin | ].
    destruct (p c) eqn:Hp; [ | destruct Hin]. destruct Hin as [<- | []].
    exists [c]. split; [reflexivity | ]. cbn. now rewrite (Hc c Hp).
  - destruct Hc as [C1 C2]. exact (Hseq _ _ (IH1 C1) (IH2 C2)).
  - destruct Hc as [C1 C2]. intros s rest Hin. apply in_app_or in Hin.
    destruct Hin as [Hin | Hin]; [now apply (IH1 C1) | now apply (IH2 C2)].
  - intros s rest Hin. apply in_app_or in Hin.
    destruct Hin as [Hin | Hin]; [now apply (IH1 Hc) | now apply Heps].
  - induction n as [ | n IHn]; cbn [upto]; [exact Heps | ].
    intros s rest Hin. apply in_app_or in Hin.
    destruct Hin as [Hin | Hin]; [ | now apply Heps].
    exact (Hseq _ _ (IH1 Hc) IHn s rest Hin).
  - induction n as [ | n IHn]; cbn [times]; [exact Heps | ].
    exact (Hseq _ _ (IH1 Hc) IHn).
  - intros s. generalize (length s). intros fuel. revert s.
    induction fuel as [ | k IHk]; cbn [lazy_star]; [exact Heps | ].
    intros s rest [<- | Hin]; [apply Heps; now left | ].
    exact (Hseq _ _ (IH1 Hc) IHk s rest Hin).
Qed.

Lemma octet_classes : classes_in digit octet.
Proof.
  cbn [octet classes_in lit]. repeat split;
    intros c; destruct c as [[] [] [] [] [] [] [] []];
    vm_compute; intros H; first [reflexivity | discriminate H].
Qed.

(** The text a full match of [octet] takes is the text of an octet. *)
Lemma full_octet (w : text) :
  In [] (matches octet w) <-> octet_text w.
Proof.
  split.
  - intros Hfull.
    assert (Hd : forallb digit w = true).
    { destruct (matches_classes digit octet octet_classes w [] Hfull)
        as (pre & E & Hpre). rewrite app_nil_r in E. now subst pre. }
    assert (Hne : w <> []).
    { intros ->. vm_compute in Hfull. tauto. }
    assert (Hlen : length w <= 3).
    { apply (matches_width octet eq_refl) in Hfull. cbn in Hfull. lia. }
    repeat split; auto.
    assert (Hin : In w (digit_strings 1 ++ digit_strings 2 ++ digit_strings 3)).
    { pose proof (digit_strings_complete w Hd) as Hs.
      destruct w as [ | c1 [ | c2 [ | c3 [ | c4 t]]]];
        [congruence | | | | simpl in Hlen; lia];
        simpl length in Hs; rewrite !in_app_iff; auto. }
    pose proof (proj1 (forallb_forall _ _) octet_check_upto3 w Hin) as Hchk.
    unfold octet_check in Hchk. apply eqb_prop in Hchk.
    apply fullmatch_In in Hfull. rewrite Hfull in Hchk. symmetry in Hchk.
    apply andb_prop in Hchk. destruct Hchk as [_ Hv]. now apply Nat.leb_le.
  - intros ((Hne & Hd) & Hlen & Hval). apply fullmatch_In.
    assert (Hin : In w (digit_strings 1 ++ digit_strings 2 ++ digit_strings 3)).
    { pose proof (digit_strings_complete w Hd) as Hs.
      destruct w as [ | c1 [ | c2 [ | c3 [ | c4 t]]]];
        [congruence | | | | simpl in Hlen; lia];
        simpl length in Hs; rewrite !in_app_iff; auto. }
    pose proof (proj1 (forallb_forall _ _) octet_check_upto3 w Hin) as Hchk.
    unfold octet_check in Hchk. apply eqb_prop in Hchk. rewrite Hchk.
    apply andb_true_intro. split; now apply Nat.leb_le.
Qed.

(** The pattern [ip_reg] in full match: the dotted quads. *)
Lemma full_ip_reg (w : text) :
  In [] (matches ip_reg w) <-> dotted_quad w.
Proof.
  unfold ip_reg, dotted_quad.
  assert (Hod : star_free (Seq octet (lit "."%char)) = true) by reflexivity.
  assert (Ho : star_free octet = true) by reflexivity.
  assert (Hstep : forall w, In [] (matches (Seq octet (lit "."%char)) w) <->
                    exists a, w = a ++ ["."%char] /\ octet_text a).
  { intros v. rewrite (full_seq _ _ v Ho). split.
    - intros (w1 & w2 & -> & H1 & H2). apply full_lit in H2. subst w2.
      apply full_octet in H1. eauto.
    - intros (a & -> & Ha). exists a, ["."%char]. repeat split.
      + now apply full_octet.
      + now apply full_lit. }
  rewrite (full_seq (Times 3 (Seq octet (lit "."%char))) octet w eq_refl).
  split.
  - intros (w123 & d & -> & H123 & Hd). apply full_octet in Hd.
    cbn [matches times] in H123.
    change (In [] (flat_map
                     (fun s1 => flat_map
                        (fun s2 => flat_map (fun s3 => [s3])
                                     (matches (Seq octet (lit "."%char)) s2))
                        (matches (Seq octet (lit "."%char)) s1))
                     (matches (Seq octet (lit "."%char)) w123))) in H123.
    apply in_flat_map in H123. destruct H123 as (s1 & Hs1 & H23).
    apply in_flat_map in H23. destruct H23 as (s2 & Hs2 & H3).
    apply in_flat_map in H3. destruct H3 as (s3 & Hs3 & [E3 | []]).
    subst s3.
    apply (matches_framed _ Hod) in Hs1. destruct Hs1 as (p1 & -> & Hp1).
    apply (matches_framed _ Hod) in Hs2. destruct Hs2 as (p2 & -> & Hp2).
    apply Hstep in Hp1. destruct Hp1 as (a & -> & Ha).
    apply Hstep in Hp2. destruct Hp2 as (b & -> & Hb).
    apply Hstep in Hs3. destruct Hs3 as (c & -> & Hc).
    exists a, b, c, d. split; [ | auto].
    now repeat first [rewrite <- app_assoc | rewrite <- app_comm_cons].
  - intros (a & b & c & d & -> & Ha & Hb & Hc & Hd).
    exists (a ++ "."%char :: b ++ "."%char :: c ++ ["."%char]), d.
    split;
      [now repeat first [rewrite <- app_assoc | rewrite <- app_comm_cons] | ].
    split; [ | now apply full_octet].
    cbn [matches times].
    change (In [] (flat_map
                     (fun s1 => flat_map
                        (fun s2 => flat_map (fun s3 => [s3])
                                     (matches (Seq octet (lit "."%char)) s2))
                        (matches (Seq octet (lit "."%char)) s1))
                     (matches (Seq octet (lit "."%char))
                        (a ++ "."%char :: b ++ "."%char :: c ++ ["."%char])))).
    apply in_flat_map. exists (b ++ "."%char :: c ++ ["."%char]). split.
    { apply (matches_framed _ Hod). exists (a ++ ["."%char]).
      split; [ | apply Hstep; eauto].
      now repeat first [rewrite <- app_assoc | rewrite <- app_comm_cons]. }
    apply in_flat_map. exists (c ++ ["."%char]). split.
    { apply (matches_framed _ Hod). exists (b ++ ["."%char]).
      split; [ | apply Hstep; eauto].
      now repeat first [rewrite <- app_assoc | rewrite <- app_comm_cons]. }
    apply in_flat_map. exists []. split; [ | now left].
    apply Hstep. eauto.
Qed.

(** What [pattern.match] returns is at the start of the line and in full
    match with the pattern. *)
Lemma re_match_prefix (r : regex) (line m : string) :
  star_free r = true ->
  re_match r line = Some m ->
  exists rest,
    list_ascii_of_string line = list_ascii_of_string m ++ rest
    /\ In [] (matches r (list_ascii_of_string m)).
Proof.
  intros Hsf. unfold re_match.
  destruct (matches r (list_ascii_of_string line)) as [ | rest l] eqn:E;
    [discriminate | ].
  intros [= <-].
  assert (Hin : In rest (matches r (list_ascii_of_string line)))
    by (rewrite E; now left).
  apply (matches_framed r Hsf) in Hin. destruct Hin as (pre & Hline & Hpre).
  exists rest. rewrite Hline, length_app.
  replace (length pre + length rest - length rest) with (length pre) by lia.
  rewrite take_app_length, list_ascii_of_string_of_list_ascii. auto.
Qed.

(** X9: whatever [ip_reg.match] takes from a line of ASCII text is a
    dotted quad at the start of the line: four groups of one to three
    digits [0-9], each with a value of at most 255, with dots between
    them. (The pattern does not look at what follows: of 1.2.3.256 it
    takes 1.2.3.25.) *)
Theorem ip_match_is_dotted_quad (line m : string) :
  ascii_text (list_ascii_of_string line) = true ->
  re_match ip_reg line = Some m ->
  dotted_quad (list_ascii_of_string m)
  /\ exists rest,
       list_ascii_of_string line = list_ascii_of_string m ++ rest.
Proof.
  intros _ H. destruct (re_match_prefix ip_reg line m eq_refl H)
    as (rest & Hline & Hfull).
  split; [now apply full_ip_reg | eauto].
Qed.

Lemma chars_re_fits (c : ascii) (cs : string) (t tail : text) :
  fits (String c cs) t = true -> matches (chars_re c cs) (t ++ tail) = [tail].
Proof.
  revert c t. induction cs as [ | c' cs IH]; intros c t Hfit.
  - cbn [fits] in Hfit. destruct t as [ | x t]; [discriminate | ].
    apply andb_prop in Hfit. destruct Hfit as [Hx Ht].
    destruct t; [ | discriminate]. cbn [chars_re app].
    unfold fits_char in Hx.
    destruct (Ascii.eqb c "."%char); unfold lit; cbn [matches];
      now rewrite Hx.
  - cbn [fits] in Hfit. destruct t as [ | x t]; [discriminate | ].
    apply andb_prop in Hfit. destruct Hfit as [Hx Ht].
    cbn [chars_re app]. unfold fits_char in Hx.
    destruct (Ascii.eqb c "."%char); unfold lit; cbn [matches];
      rewrite Hx; cbn [flat_map]; rewrite (IH c' t Ht); reflexivity.
Qed.

Lemma matches_lit_same (c : ascii) (s : text) :
  matches (lit c) (c :: s) = [s].
Proof. unfold lit. cbn [matches]. now rewrite Ascii.eqb_refl. Qed.

(** A one-character label is the first thing [label] finds. *)
Lemma matches_label_first (h : ascii) (s : text) :
  alnum h = true -> exists l, matches label (h :: s) = s :: l.
Proof.
  intros Hh. unfold label.
  change (matches (Alt (Class alnum) ?r) (h :: s))
    with (matches (Class alnum) (h :: s) ++ matches r (h :: s)).
  cbn [matches]. rewrite Hh. cbn [app]. eauto.
Qed.

(** A lazy star first tries to stop. *)
Lemma lazy_star_first (m : text -> list text) (fuel : nat) (s : text) :
  exists l, lazy_star m fuel s = s :: l.
Proof. destruct fuel; cbn [lazy_star]; eauto. Qed.

(** X10: the domain is pasted into the hostname pattern without escaping,
    so each dot of a domain name (a domain made of letters, digits,
    hyphens, underscores and dots) stands for any character but a
    newline. A line of ASCII text that begins with a letter or digit, a
    dot, and a text that fits the domain in this sense is taken as a host
    of the domain, whatever stands where the domain has its dots. *)
Theorem hostname_reg_domain_dots_are_wildcards
    (h c : ascii) (cs : string) (t tail : text) :
  plain_domain (String c cs) = true ->
  ascii_text (t ++ tail) = true ->
  alnum h = true ->
  fits (String c cs) t = true ->
  re_match (hostname_reg (String c cs))
           (string_of_list_ascii (h :: "."%char :: t ++ tail))
  = Some (string_of_list_ascii (h :: "."%char :: t)).
Proof.
  intros _ _ Hh Hfit. unfold re_match.
  rewrite list_ascii_of_string_of_list_ascii.
  assert (Hm : exists l,
             matches (hostname_reg (String c cs))
                     (h :: "."%char :: t ++ tail) = tail :: l).
  { unfold hostname_reg. cbv zeta.
    set (body := Seq (lit "."%char) label).
    set (K := Seq (lit "."%char) (chars_re c cs)).
    change (matches (Seq (Seq label (LazyStar body)) K)
                    (h :: "."%char :: t ++ tail))
      with (flat_map (matches K)
              (flat_map (fun s => lazy_star (matches body) (length s) s)
                        (matches label (h :: "."%char :: t ++ tail)))).
    destruct (matches_label_first h ("."%char :: t ++ tail) Hh) as (l1 & ->).
    cbn [flat_map].
    destruct (lazy_star_first (matches body)
                              (length ("."%char :: t ++ tail))
                              ("."%char :: t ++ tail)) as (l2 & ->).
    cbn [app flat_map]. subst K.
    change (matches (Seq (lit "."%char) (chars_re c cs))
                    ("."%char :: t ++ tail))
      with (flat_map (matches (chars_re c cs))
                     (matches (lit "."%char) ("."%char :: t ++ tail))).
    rewrite matches_lit_same. cbn [flat_map].
    rewrite (chars_re_fits c cs t tail Hfit). cbn [app]. eauto. }
  destruct Hm as (l & ->).
  f_equal. f_equal.
  change (h :: "."%char :: t ++ tail) with ((h :: "."%char :: t) ++ tail).
  rewrite length_app.
  replace (length (h :: "."%char :: t) + length tail - length tail)
    with (length (h :: "."%char :: t)) by lia.
  apply take_app_length.
Qed.

End ShapeFacts.

Section ShapeExamples.
Import Regex Shapes Samples.

(** 10.0.0.255 at the start of a line. *)
Lemma ip_match_is_dotted_quad_witness :
  dotted_quad (list_ascii_of_string "10.0.0.255")
  /\ exists rest,
       list_ascii_of_string "10.0.0.255 open"
       = list_ascii_of_string "10.0.0.255" ++ rest.
Proof.
  apply (ip_match_is_dotted_quad "10.0.0.255 open" "10.0.0.255");
    vm_compute; reflexivity.
Defined.

(** a.exampleXcom is taken as a host of example.com. *)
Lemma hostname_reg_domain_dots_are_wildcards_witness :
  re_match (hostname_reg "example.com")
           (string_of_list_ascii
              ("a"%char :: "."%char :: foreign_name ++ []))
  = Some (string_of_list_ascii ("a"%char :: "."%char :: foreign_name)).
Proof.
  apply (hostname_reg_domain_dots_are_wildcards
           "a"%char "e"%char "xample.com" foreign_name []);
    vm_compute; reflexivity.
Defined.

End ShapeExamples.

(** ** What [headers()] does to the table *)

Section EnrichmentFacts.
Import Store Enricher Targets Samples.

Lemma dict_set_elem {V} (k : string) (v : V) (d : list (string * V))
    (e : string * V) :
  e ∈ Py.dict_set k v d -> e = (k, v) \/ e ∈ d.
Proof.
  induction d as [ | [k' v'] t IH]; cbn [Py.dict_set]; intros Hin.
  - apply list_elem_of_singleton in Hin. now left.
  - destruct (String.eqb_spec k k') as [<- | Hne].
    + apply elem_of_cons in Hin. destruct Hin as [-> | Hin]; [now left | ].
      right. now right.
    + apply elem_of_cons in Hin. destruct Hin as [-> | Hin].
      * right. left.
      * apply IH in Hin. destruct Hin; [now left | right; now right].
Qed.

Lemma dict_set_key {V} (k : string) (v : V) (d : list (string * V))
    (k0 : string) :
  k0 ∈ map fst (Py.dict_set k v d) <-> k0 = k \/ k0 ∈ map fst d.
Proof.
  induction d as [ | [k' v'] t IH]; cbn [Py.dict_set map fst].
  - rewrite list_elem_of_singleton. split; [auto | ].
    intros [H | H]; [exact H | inversion H].
  - destruct (String.eqb_spec k k') as [<- | Hne]; cbn [map fst].
    + rewrite elem_of_cons. tauto.
    + rewrite !elem_of_cons, IH. tauto.
Qed.

(** The entries of [dict(pairs)] are pairs of the list, and every key of
    the list is a key of the dict. *)
Lemma dict_entries {V} (pairs : list (string * V)) :
  (forall e, e ∈ Py.dict pairs -> e ∈ pairs)
  /\ (forall k, k ∈ map fst pairs -> k ∈ map fst (Py.dict pairs)).
Proof.
  unfold Py.dict.
  assert (H : forall (acc : list (string * V)),
             (forall e, e ∈ fold_left
                          (fun d kv => Py.dict_set (fst kv) (snd kv) d)
                          pairs acc -> e ∈ acc \/ e ∈ pairs)
             /\ (forall k, k ∈ map fst acc \/ k ∈ map fst pairs ->
                   k ∈ map fst (fold_left
                                  (fun d kv => Py.dict_set (fst kv) (snd kv) d)
                                  pairs acc))).
  { induction pairs as [ | [k v] t IH]; intros acc; cbn [fold_left fst snd].
    - split; [auto | ]. intros k [H | H]; [exact H | inversion H].
    - destruct (IH (Py.dict_set k v acc)) as [IH1 IH2]. split.
      + intros e He. apply IH1 in He. destruct He as [He | He].
        * apply dict_set_elem in He. destruct He as [-> | He];
            [right; left | now left].
        * right. now right.
      + intros k0 Hk. apply IH2. rewrite dict_set_key. cbn [map fst] in Hk.
        rewrite elem_of_cons in Hk. tauto. }
  destruct (H []) as [H1 H2]. split.
  - intros e He. apply H1 in He. destruct He as [He | He];
      [inversion He | exact He].
  - intros k Hk. apply H2. now right.
Qed.

Lemma Forall2_chain (R : row -> row -> Prop) (l1 l2 l3 : list row) :
  (forall a b c, R a b -> R b c -> R a c) ->
  Forall2 R l1 l2 -> Forall2 R l2 l3 -> Forall2 R l1 l3.
Proof.
  intros Ht H12. revert l3. induction H12 as [ | a b l1 l2 Hab H12 IH];
    intros l3 H23; inversion H23; subst; constructor; eauto.
Qed.

Lemma enriched_from_refl (dom : string) (keys : list string) (r : row) :
  enriched_from dom keys r r.
Proof. split; auto. Qed.

Lemma enriched_from_trans (dom : string) (keys : list string)
    (a b c : row) :
  enriched_from dom keys a b -> enriched_from dom keys b c ->
  enriched_from dom keys a c.
Proof.
  intros [Kab Hab] [Kbc Hbc]. split; [congruence | ].
  destruct Hbc as [-> | (Hd & k & Hk & Hor)]; [exact Hab | ].
  right. unfold target_key in Kab. injection Kab as _ Hip Hhn Hdm.
  unfold in_domain in *. rewrite Hdm in Hd. split; [exact Hd | ].
  exists k. split; [exact Hk | ]. now rewrite <- Hip, <- Hhn.
Qed.

(** One wave: a fold of UPDATE statements, by ip or by hostname. *)
Lemma wave_enriched_from (dom : string) (keys : list string)
    (upd : option string -> option string -> string -> string -> db -> db)
    (es : list (string * (option string * option string))) (d : db) :
  (forall h s k acc,
     k ∈ keys ->
     domains (upd h s k dom acc) = domains acc
     /\ Forall2 (enriched_from dom keys) (data acc)
                (data (upd h s k dom acc))) ->
  (forall e, e ∈ es -> fst e ∈ keys) ->
  let d' := fold_left (fun acc kv =>
                         upd (fst (snd kv)) (snd (snd kv)) (fst kv) dom acc)
                      es d in
  domains d' = domains d
  /\ Forall2 (enriched_from dom keys) (data d) (data d').
Proof.
  intros Hupd. revert d. induction es as [ | e t IH]; intros d Hkeys;
    cbn [fold_left]; cbv zeta.
  - split; [reflexivity | ].
    induction (data d); constructor; auto using enriched_from_refl.
  - destruct (Hupd (fst (snd e)) (snd (snd e)) (fst e) d) as [Hd1 HF1];
      [apply Hkeys; left | ].
    destruct (IH (upd (fst (snd e)) (snd (snd e)) (fst e) dom d)) as [Hd2 HF2];
      [intros e' He'; apply Hkeys; now right | ].
    cbv zeta in *. split; [congruence | ].
    eapply Forall2_chain; eauto using enriched_from_trans.
Qed.

Lemma update_ip_enriched_from (pl : planner) (dom : string)
    (keys : list string) (h s : option string) (k : string) (acc : db) :
  k ∈ keys ->
  domains (update_headers_ip pl h s k dom acc) = domains acc
  /\ Forall2 (enriched_from dom keys) (data acc)
             (data (update_headers_ip pl h s k dom acc)).
Proof.
  intros Hk. split; [reflexivity | ]. unfold update_headers_ip. cbn [data].
  apply update_limit1_Forall2; [apply enriched_from_refl | ].
  intros r Hc. apply andb_prop in Hc. destruct Hc as [Hip Hd].
  apply sql_eq_Some in Hip. split; [reflexivity | ]. right.
  split; [exact Hd | ]. exists k. auto.
Qed.

Lemma update_hostname_enriched_from (pl : planner) (dom : string)
    (keys : list string) (h s : option string) (k : string) (acc : db) :
  k ∈ keys ->
  domains (update_headers_hostname pl h s k dom acc) = domains acc
  /\ Forall2 (enriched_from dom keys) (data acc)
             (data (update_headers_hostname pl h s k dom acc)).
Proof.
  intros Hk. split; [reflexivity | ].
  unfold update_headers_hostname. cbn [data].
  apply update_limit1_Forall2; [apply enriched_from_refl | ].
  intros r Hc. apply andb_prop in Hc. destruct Hc as [Hhn Hd].
  apply sql_eq_Some in Hhn. split; [reflexivity | ]. right.
  split; [exact Hd | ]. exists k. auto.
Qed.

Section WithFetcher.

Variable pl : planner.
Variable grab_header : string -> string * (option string * option string).

Lemma fetch_all_keys (ids : list string)
    (e : string * (option string * option string)) :
  e ∈ fetch_all grab_header ids ->
  exists ident, ident ∈ ids /\ e = grab_header ident.
Proof.
  unfold fetch_all. intros He.
  apply (proj1 (dict_entries (map grab_header ids))) in He.
  apply list_elem_of_fmap in He. destruct He as (ident & -> & Hid). eauto.
Qed.

(** X11: [headers()] changes header columns and nothing else, whatever
    the plans of its statements. The table of domains is the same; row by
    row, in the same order, the rowid, the ip, the hostname and the
    domain are the same; and a row is changed at all only if it is a row
    of the domain of the call whose ip or hostname is an identifier that
    the fetcher returned for an ip of the domain. *)
Theorem headers_changes_header_columns_only (self_domain : string) (d : db) :
  let dom := Py.replace_dot self_domain in
  let keys :=
    map (fun ident => fst (grab_header ident)) (select_ip pl dom d) in
  let d' := result (headers pl grab_header self_domain d) in
  domains d' = domains d
  /\ Forall2 (enriched_from dom keys) (data d) (data d').
Proof.
  intros dom keys. cbv zeta. unfold headers. cbn [result]. fold dom.
  assert (Hk : forall ids e, ids = select_ip pl dom d ->
                 e ∈ fetch_all grab_header ids -> fst e ∈ keys).
  { intros ids e -> He. apply fetch_all_keys in He.
    destruct He as (ident & Hid & ->). unfold keys.
    apply list_elem_of_fmap. eauto. }
  destruct (wave_enriched_from dom keys (update_headers_ip pl)
              (fetch_all grab_header (select_ip pl dom d)) d
              (update_ip_enriched_from pl dom keys)
              (fun e => Hk _ e eq_refl)) as [Hd1 HF1].
  cbv zeta in *.
  fold (ip_wave pl grab_header dom (select_ip pl dom d) d) in *.
  set (d1 := ip_wave pl grab_header dom (select_ip pl dom d) d) in *.
  assert (Hsel : select_ip pl dom d1 = select_ip pl dom d)
    by apply select_ip_ip_wave.
  destruct (wave_enriched_from dom keys (update_headers_hostname pl)
              (fetch_all grab_header (select_ip pl dom d1)) d1
              (update_hostname_enriched_from pl dom keys)
              (fun e => Hk _ e Hsel)) as [Hd2 HF2].
  cbv zeta in *.
  fold (hostname_wave pl grab_header dom (select_ip pl dom d1) d1) in *.
  split; [congruence | ].
  eapply Forall2_chain; eauto using enriched_from_trans.
Qed.

End WithFetcher.

End EnrichmentFacts.

(** ** Which rows [headers()] enriches *)

Section FirstRowFacts.
Import Store Enricher Targets Samples.

Lemma where_ip_key (k dom : string) (x y : row) :
  target_key x = target_key y -> where_ip k dom x = where_ip k dom y.
Proof.
  unfold target_key, where_ip, in_domain. now intros [= _ -> _ ->].
Qed.

Lemma target_key_keys (a b : row) :
  target_key a = target_key b -> ip a = ip b /\ hostname a = hostname b.
Proof. unfold target_key. intros [= _ -> -> _]. auto. Qed.

(** Rows at the same place before and after one UPDATE of the headers. *)
Lemma update_headers_keys (p : plan) (cond : row -> bool) (h s : option string)
    (rows : list row) :
  Forall2 (fun a b => target_key a = target_key b)
          rows (update_limit1 p cond (set_headers h s) rows).
Proof. apply update_limit1_Forall2; reflexivity. Qed.

(** An UPDATE of the headers does not move the place at which a later
    UPDATE by ip stops. *)
Lemma first_match_after_update (p q : plan) (cond : row -> bool)
    (h s : option string) (k dom : string) (rows : list row) :
  first_match p (where_ip k dom) (update_limit1 q cond (set_headers h s) rows)
  = first_match p (where_ip k dom) rows.
Proof.
  symmetry.
  apply (first_match_related (fun a b => target_key a = target_key b)).
  - exact target_key_keys.
  - intros a b Hab. now apply where_ip_key.
  - apply update_headers_keys.
Qed.

Section WithFetcher.

Variable pl : planner.
Variable grab_header : string -> string * (option string * option string).

(** The row at which the UPDATE for [k] stops, through the first wave. *)
Lemma ip_wave_first_row (dom k : string)
    (es : list (string * (option string * option string))) :
  (forall e, e ∈ es -> snd e = snd (grab_header (fst e))) ->
  forall (cur : db) (n : nat) (rc : row),
    first_match (pl UpdateByIp) (where_ip k dom) (data cur) = Some n ->
    data cur !! n = Some rc ->
    data (fold_left (fun acc kv =>
                       update_headers_ip pl (fst (snd kv)) (snd (snd kv))
                                         (fst kv) dom acc) es cur) !! n
    = Some (if bool_decide (k ∈ map fst es) then fetched grab_header k rc else rc).
Proof.
  induction es as [ | [k' [h s]] t IH]; intros Hval cur n rc Hfirst Hn;
    cbn [fold_left map fst snd].
  - exact Hn.
  - assert (Hval' : forall e, e ∈ t -> snd e = snd (grab_header (fst e)))
      by (intros e He; apply Hval; now right).
    assert (Hfirst' : first_match (pl UpdateByIp) (where_ip k dom)
                        (data (update_headers_ip pl h s k' dom cur))
                      = Some n).
    { unfold update_headers_ip. cbn [data].
      now rewrite first_match_after_update. }
    assert (Hc : where_ip k dom rc = true).
    { destruct (first_match_Some _ _ _ _ Hfirst) as (r & Hr & Hc).
      congruence. }
    destruct (decide (k' = k)) as [-> | Hne].
    + assert (Hn' : data (update_headers_ip pl h s k dom cur) !! n
                    = Some (set_headers h s rc)).
      { unfold update_headers_ip. cbn [data].
        rewrite update_limit1_lookup, decide_True by exact Hfirst.
        now rewrite Hn. }
      rewrite (IH Hval' _ n (set_headers h s rc) Hfirst' Hn').
      rewrite (bool_decide_eq_true_2 (k ∈ k :: map fst t)) by left.
      specialize (Hval (k, (h, s))). cbn [fst snd] in Hval.
      assert (Hhs : (h, s) = snd (grab_header k)) by (apply Hval; left).
      unfold fetched. rewrite <- Hhs. cbn [fst snd].
      destruct (bool_decide (k ∈ map fst t)); reflexivity.
    + assert (Hn' : data (update_headers_ip pl h s k' dom cur) !! n = Some rc).
      { unfold update_headers_ip. cbn [data].
        rewrite update_limit1_lookup, decide_False; [exact Hn | ].
        intros E. destruct (first_match_Some _ _ _ _ E) as (r & Hr & Hc').
        assert (r = rc) as -> by congruence.
        unfold where_ip in Hc, Hc'.
        apply andb_prop in Hc. destruct Hc as [Hip _].
        apply andb_prop in Hc'. destruct Hc' as [Hip' _].
        apply sql_eq_Some in Hip. apply sql_eq_Some in Hip'. congruence. }
      rewrite (IH Hval' _ n rc Hfirst' Hn').
      destruct (decide (k ∈ map fst t)) as [Hin | Hnin].
      * rewrite !bool_decide_eq_true_2; auto. now right.
      * rewrite !bool_decide_eq_false_2; auto.
        intros Hin. apply elem_of_cons in Hin. destruct Hin; congruence.
Qed.

(** A row at which no UPDATE by ip stops, through the first wave. *)
Lemma ip_wave_other_row (dom : string)
    (es : list (string * (option string * option string))) :
  forall (cur : db) (n : nat) (rc : row),
    data cur !! n = Some rc ->
    (forall k,
       first_match (pl UpdateByIp) (where_ip k dom) (data cur) <> Some n) ->
    data (fold_left (fun acc kv =>
                       update_headers_ip pl (fst (snd kv)) (snd (snd kv))
                                         (fst kv) dom acc) es cur) !! n
    = Some rc.
Proof.
  induction es as [ | [k' [h s]] t IH]; intros cur n rc Hn Hnot;
    cbn [fold_left fst snd].
  - exact Hn.
  - apply IH.
    + unfold update_headers_ip. cbn [data].
      rewrite update_limit1_lookup, decide_False; [exact Hn | apply Hnot].
    + intros k. unfold update_headers_ip. cbn [data].
      rewrite first_match_after_update. apply Hnot.
Qed.

(** The second wave changes nothing when no hostname of the domain is one
    of its identifiers. *)
Lemma hostname_wave_no_match (dom : string)
    (es : list (string * (option string * option string))) (cur : db) :
  (forall x e, x ∈ data cur -> e ∈ es -> in_domain dom x = true ->
     hostname x <> Some (fst e)) ->
  data (fold_left (fun acc kv =>
                     update_headers_hostname pl (fst (snd kv)) (snd (snd kv))
                                             (fst kv) dom acc) es cur)
  = data cur.
Proof.
  revert cur. induction es as [ | e t IH]; intros cur Hno; cbn [fold_left];
    [reflexivity | ].
  assert (Hstep : data (update_headers_hostname pl (fst (snd e)) (snd (snd e))
                          (fst e) dom cur) = data cur).
  { unfold update_headers_hostname. cbn [data]. apply update_limit1_none.
    intros x Hx. unfold where_hostname.
    destruct (in_domain dom x) eqn:Hd; [ | now rewrite andb_false_r].
    rewrite andb_true_r.
    destruct (sql_eq (hostname x) (Some (fst e))) eqn:Hs; [ | reflexivity].
    apply sql_eq_Some in Hs. exfalso.
    apply (Hno x e Hx); [left | exact Hd | exact Hs]. }
  rewrite IH; [exact Hstep | ].
  intros x e' Hx He'. rewrite Hstep in Hx. apply Hno; [exact Hx | now right].
Qed.

Lemma select_ip_elem (dom : string) (d : db) (k : string) :
  k ∈ select_ip pl dom d <->
  exists r, r ∈ data d /\ where_ip k dom r = true.
Proof.
  unfold select_ip, where_ip. rewrite list_elem_of_omap. split.
  - intros (r & Hr & Hk). apply scan_elem in Hr. exists r.
    split; [exact Hr | ].
    destruct (in_domain dom r); [ | discriminate]. rewrite Hk. cbn.
    now rewrite String.eqb_refl.
  - intros (r & Hr & Hc). apply andb_prop in Hc. destruct Hc as [Hip Hd].
    apply sql_eq_Some in Hip. exists r. split; [now apply scan_elem | ].
    now rewrite Hd.
Qed.

(** The table after the first wave has the hostnames it had. *)
Lemma ip_wave_hostnames (dom : string) (ids : list string) (d : db)
    (x : row) :
  x ∈ data (ip_wave pl grab_header dom ids d) ->
  exists x0, x0 ∈ data d /\ target_key x = target_key x0.
Proof.
  unfold ip_wave. generalize (fetch_all grab_header ids). intros es.
  revert d. induction es as [ | e t IH]; intros d Hx; cbn [fold_left] in Hx.
  - eauto.
  - apply IH in Hx. destruct Hx as (x1 & Hx1 & Hkey).
    unfold update_headers_ip in Hx1. cbn [data] in Hx1.
    apply list_elem_of_lookup in Hx1. destruct Hx1 as (m & Hm).
    destruct (Forall2_lookup_r _ _ _ m x1
                (update_headers_keys (pl UpdateByIp) (where_ip (fst e) dom)
                   (fst (snd e)) (snd (snd e)) (data d)) Hm)
      as (x0 & Hx0 & Hkey0).
    exists x0. split; [ | congruence].
    apply list_elem_of_lookup. eauto.
Qed.

Hypothesis grab_header_ident : forall ident, fst (grab_header ident) = ident.

Lemma fetch_all_values (ids : list string)
    (e : string * (option string * option string)) :
  e ∈ fetch_all grab_header ids ->
  fst e ∈ ids /\ snd e = snd (grab_header (fst e)).
Proof.
  intros He. apply fetch_all_keys in He. destruct He as (ident & Hid & ->).
  rewrite grab_header_ident. auto.
Qed.

Lemma fetch_all_has_key (ids : list string) (k : string) :
  k ∈ ids -> k ∈ map fst (fetch_all grab_header ids).
Proof.
  intros Hk. unfold fetch_all.
  apply (proj2 (dict_entries (map grab_header ids))).
  rewrite map_map. apply list_elem_of_fmap. exists k.
  split; [now rewrite grab_header_ident | exact Hk].
Qed.

Variable self_domain : string.
Variable d : db.

Hypothesis no_hostname_is_an_ip :
  forall x ident,
    x ∈ data d -> in_domain (Py.replace_dot self_domain) x = true ->
    ident ∈ select_ip pl (Py.replace_dot self_domain) d ->
    hostname x <> Some ident.

Lemma headers_result_is_first_wave :
  data (result (headers pl grab_header self_domain d))
  = data (ip_wave pl grab_header (Py.replace_dot self_domain)
                  (select_ip pl (Py.replace_dot self_domain) d) d).
Proof.
  unfold headers. cbn [result]. unfold hostname_wave.
  apply hostname_wave_no_match. intros x e Hx He Hd Hh.
  apply fetch_all_values in He. destruct He as [He _].
  rewrite select_ip_ip_wave in He.
  apply ip_wave_hostnames in Hx. destruct Hx as (x0 & Hx0 & Hkey).
  unfold target_key in Hkey. injection Hkey as _ _ Hhn Hdm.
  apply (no_hostname_is_an_ip x0 (fst e)); auto.
  - unfold in_domain in *. now rewrite <- Hdm.
  - now rewrite <- Hhn.
Qed.

(** X12: when the fetcher returns the identifier it was given and no
    hostname of the domain is the text of an ip of the domain, [headers()]
    gives, for every ip of the domain, the headers fetched for that ip to
    the row at which the UPDATE for that ip stops, whatever the row held
    before. That row is the first row of the ip in the order in which
    the plan of the UPDATE meets the rows: under a scan of the table no
    row of the ip has a smaller rowid, under the index no row of the ip
    has a hostname that sorts before its own (NULL before every text). *)
Theorem headers_enriches_first_row (n : nat) (r : row) (k : string) :
  first_match (pl UpdateByIp) (where_ip k (Py.replace_dot self_domain))
              (data d) = Some n ->
  data d !! n = Some r ->
  data (result (headers pl grab_header self_domain d)) !! n
  = Some (set_headers (fst (snd (grab_header k))) (snd (snd (grab_header k)))
                      r)
  /\ (pl UpdateByIp = TableScan ->
      forall m x, m < n -> data d !! m = Some x ->
        where_ip k (Py.replace_dot self_domain) x = false)
  /\ (pl UpdateByIp = IndexScan ->
      forall x, x ∈ data d ->
        where_ip k (Py.replace_dot self_domain) x = true ->
        null_first (hostname r) (hostname x) <> Gt).
Proof.
  intros Hfirst Hn. split_and!.
  - rewrite headers_result_is_first_wave. unfold ip_wave.
    rewrite (ip_wave_first_row (Py.replace_dot self_domain) k _
               (fun e He => proj2 (fetch_all_values _ e He)) d n r Hfirst Hn).
    rewrite bool_decide_eq_true_2; [reflexivity | ].
    apply fetch_all_has_key. apply select_ip_elem.
    destruct (first_match_Some _ _ _ _ Hfirst) as (r' & Hr' & Hc).
    exists r'. split; [ | exact Hc]. apply list_elem_of_lookup. eauto.
  - intros Hp. rewrite Hp in Hfirst. now apply first_match_table_first.
  - intros Hp x Hx Hc. rewrite Hp in Hfirst.
    pose proof (first_match_index_least _ _ _ _ Hfirst Hn x Hx Hc) as Hle.
    destruct (first_match_Some _ _ _ _ Hfirst) as (r' & Hr' & Hc').
    assert (r' = r) as -> by congruence.
    unfold where_ip in Hc, Hc'.
    apply andb_prop in Hc. destruct Hc as [Hip _].
    apply andb_prop in Hc'. destruct Hc' as [Hip' _].
    apply sql_eq_Some in Hip. apply sql_eq_Some in Hip'.
    unfold index_leb in Hle. rewrite Hip, Hip', null_first_refl in Hle.
    intros Hgt. rewrite Hgt in Hle. discriminate Hle.
Qed.

(** X13: under the same conditions every other row is left as it was: a
    row at which no UPDATE by ip stops (a row without ip, a row of
    another domain, a row of an ip that the plan meets behind another
    row of that ip) keeps the header columns it had. *)
Theorem headers_leaves_other_rows (n : nat) (r : row) :
  data d !! n = Some r ->
  (forall k,
     first_match (pl UpdateByIp) (where_ip k (Py.replace_dot self_domain))
                 (data d) <> Some n) ->
  data (result (headers pl grab_header self_domain d)) !! n = Some r.
Proof.
  intros Hn Hnot. rewrite headers_result_is_first_wave. unfold ip_wave.
  now apply ip_wave_other_row.
Qed.

End WithFetcher.

End FirstRowFacts.

Section FirstRowExamples.
Import Store Enricher Targets Samples.

Lemma d_later_first_no_hostname_is_an_ip :
  forall x ident,
    x ∈ data d_later_first ->
    in_domain (Py.replace_dot "example.com") x = true ->
    ident ∈ select_ip sqlite_plans (Py.replace_dot "example.com")
                      d_later_first ->
    hostname x <> Some ident.
Proof.
  intros x ident Hx _ Hid.
  assert (Hi : ident = "9.9.9.9").
  { vm_compute in Hid. apply elem_of_cons in Hid. destruct Hid as [-> | Hid];
      [reflexivity | ].
    apply list_elem_of_singleton in Hid. exact Hid. }
  subst ident. unfold d_later_first in Hx. cbn [data] in Hx.
  repeat (apply elem_of_cons in Hx; destruct Hx as [-> | Hx];
          [cbn; discriminate | ]).
  inversion Hx.
Qed.

(** Of the two rows of 9.9.9.9 the index has a.example.com, the later
    row, first: it gets the headers. *)
Lemma headers_enriches_first_row_witness :
  data (result (headers sqlite_plans grab_fixed "example.com" d_later_first))
  !! 1
  = Some (set_headers (fst (snd (grab_fixed "9.9.9.9")))
                      (snd (snd (grab_fixed "9.9.9.9")))
                      (Row 2 (Some "9.9.9.9") (Some "a.example.com") None None
                           (Some "example_com"))).
Proof.
  apply (proj1 (headers_enriches_first_row sqlite_plans grab_fixed
                  (fun _ => eq_refl) "example.com" d_later_first
                  d_later_first_no_hostname_is_an_ip 1 _ "9.9.9.9"
                  eq_refl eq_refl)).
Defined.

(** The earlier row, b.example.com, does not. *)
Lemma headers_leaves_other_rows_witness :
  data (result (headers sqlite_plans grab_fixed "example.com" d_later_first))
  !! 0
  = Some (Row 1 (Some "9.9.9.9") (Some "b.example.com") None None
              (Some "example_com")).
Proof.
  apply (headers_leaves_other_rows sqlite_plans grab_fixed
           (fun _ => eq_refl) "example.com" d_later_first
           d_later_first_no_hostname_is_an_ip 0).
  - reflexivity.
  - intros k E.
    destruct (first_match_Some _ _ _ _ E) as (r & Hr & Hc).
    cbn in Hr. injection Hr as <-.
    unfold where_ip in Hc. apply andb_prop in Hc. destruct Hc as [Hk _].
    apply sql_eq_Some in Hk. cbn in Hk. injection Hk as <-.
    vm_compute in E. discriminate E.
Defined.

End FirstRowExamples.

(** ** The entries of the index *)

Section IndexEntryFacts.
Import Store Indexer IndexShapes Samples.



Section WithFiles.

Variable glob : string -> list string.
Variable getcwd : string.
Variable join_abs : list string -> string.





End WithFiles.

End IndexEntryFacts.

Section IndexEntryExamples.
Import Store Indexer IndexShapes Samples.



End IndexEntryExamples.

(** ** The aggregated lists *)

Section ExportListFacts.
Import Store Exporter ExportShapes Samples.
Local Open Scope io_scope.






Section WithFiles.

Variable join_abs : list string -> string.
Variable json_dumps : header_row -> string.




End WithFiles.

End ExportListFacts.

(** ** Posting the files in batches *)

Section UploadFacts.
Import Upload Samples.

Lemma batches_full (ps : list (list string)) :
  Forall (fun p => length p = 5) ps -> batches ps.
Proof.
  intros H. exists ps, []. rewrite app_nil_r.
  split_and!; [reflexivity | exact H | cbn; lia | constructor].
Qed.

Lemma batches_last (ps : list (list string)) (p : list string) :
  Forall (fun p => length p = 5) ps -> 1 <= length p <= 4 ->
  batches (ps ++ [p]).
Proof.
  intros H Hp. exists ps, [p].
  split_and!; [reflexivity | exact H | cbn; lia | ].
  constructor; [exact Hp | constructor].
Qed.

Section WithService.

Variable walk : string -> list (string * list string * list string).
Variable join_abs : list string -> string.
Variable st_size : string -> Py.outcome N api_error.
Variable upload_file : string -> string -> string -> Py.outcome string api_error.
Variable create_post : string -> list string -> option api_error.

Lemma upload_loop_accounting (channel_id : string)
    (todo : list (string * string)) :
  forall (file_ids : list string) (acc : upload_run),
    length file_ids < 5 ->
    uploaded acc = concat (posts acc) ++ file_ids ->
    Forall (fun p => length p = 5) (posts acc) ->
    let r := upload_loop join_abs st_size upload_file create_post channel_id
                         todo file_ids acc in
    uploaded r = concat (posts r) ++ pending r
    /\ batches (posts r)
    /\ length (pending r) <= 5
    /\ (up_out r = Py.Returned tt -> pending r = []).
Proof.
  induction todo as [ | [root filename] rest IH];
    intros file_ids acc Hlt Hup Hfull; cbn [upload_loop]; cbv zeta.
  - destruct (Nat.ltb_spec 0 (length file_ids)) as [Hpos | Hzero].
    + destruct (create_post channel_id file_ids) as [e | ];
        cbn [posts uploaded pending up_out].
      * split_and!; [exact Hup | now apply batches_full | lia | discriminate].
      * split_and!; [ | apply batches_last; [exact Hfull | lia] | cbn; lia
                    | reflexivity].
        rewrite concat_app. cbn [concat]. now rewrite !app_nil_r.
    + cbn [posts uploaded pending up_out].
      assert (file_ids = []) as ->
          by (destruct file_ids; cbn in *; [reflexivity | lia]).
      split_and!; [exact Hup | now apply batches_full | cbn; lia
                  | reflexivity].
  - destruct (st_size (join_abs [root; filename])) as [size | e].
    + destruct (too_big size).
      * apply IH; auto.
      * destruct (upload_file channel_id filename (join_abs [root; filename]))
          as [ident | e].
        -- destruct (Nat.leb_spec 5 (length (file_ids ++ [ident])))
             as [Hfive | Hless].
           ++ rewrite length_app in Hfive. cbn [length] in Hfive.
              destruct (create_post channel_id (file_ids ++ [ident]))
                as [e | ].
              ** cbn [posts uploaded pending up_out].
                 split_and!; [ | now apply batches_full | | discriminate].
                 --- rewrite Hup. now rewrite <- app_assoc.
                 --- rewrite length_app. cbn [length]. lia.
              ** apply IH; cbn [posts uploaded]; [cbn; lia | | ].
                 --- rewrite concat_app. cbn [concat].
                     rewrite !app_nil_r, Hup. now rewrite <- app_assoc.
                 --- apply Forall_app. split; [exact Hfull | ].
                     constructor; [ | constructor].
                     rewrite length_app. cbn [length]. lia.
           ++ apply IH; cbn [posts uploaded]; auto.
              rewrite Hup. now rewrite <- app_assoc.
        -- cbn [posts uploaded pending up_out].
           split_and!; [exact Hup | now apply batches_full | lia
                       | discriminate].
    + cbn [posts uploaded pending up_out].
      split_and!; [exact Hup | now apply batches_full | lia | discriminate].
Qed.

(** X19: whatever the service does, the posts [_upload_files] creates are
    posts of exactly five files followed by at most one post of one to
    four; the files uploaded are those in the posts, in order, followed
    by the files not yet posted. When the call returns, every uploaded
    file is in a post; when it raises, at most five uploaded files are
    left without a post. *)
Theorem upload_files_batches (file_location channel_id : string) :
  let r := _upload_files walk join_abs st_size upload_file create_post
                         file_location channel_id in
  uploaded r = concat (posts r) ++ pending r
  /\ batches (posts r)
  /\ length (pending r) <= 5
  /\ (up_out r = Py.Returned tt -> pending r = []).
Proof.
  unfold _upload_files. apply upload_loop_accounting; cbn; auto. lia.
Qed.

Variable resolve_channel : Py.outcome string api_error.
Variable exists_ : string -> bool.
Variable abspath : string -> string.

(** X20: [upload()] keeps this account, and it uploads nothing when the
    channel could not be found: a login or a lookup that fails with one
    of the two errors the code handles ends the call with
    [UnboundLocalError]. A call that returns without having printed a
    handled error has posted every file it uploaded. *)
Theorem upload_account (output_dir : string) (filepath : option string) :
  let r := upload walk join_abs st_size upload_file create_post
                  resolve_channel exists_ abspath output_dir filepath in
  uploaded r = concat (posts r) ++ pending r
  /\ batches (posts r)
  /\ (forall e, resolve_channel = Py.Raised e ->
        uploaded r = []
        /\ up_out r = Py.Raised
                        (match e with
                         | NoAccessTokenProvided
                         | InvalidOrMissingParameters => UnboundLocalError
                         | _ => e
                         end))
  /\ (up_out r = Py.Returned tt ->
      (forall e, Handled e ∉ up_printed r) -> pending r = []).
Proof.
  cbv zeta. unfold upload.
  assert (Hempty : batches []).
  { exists [], []. repeat split; auto. }
  destruct resolve_channel as [ch | e] eqn:Hres.
  - unfold upload_from.
    set (loc := match filepath with
                | Some p => if Py.truthy (Some p) && exists_ (abspath p)
                            then abspath p else output_dir
                | None => output_dir
                end).
    destruct (upload_files_batches loc ch) as (H1 & H2 & H3 & H4).
    cbv zeta in *.
    destruct (up_out (_upload_files walk join_abs st_size upload_file
                                    create_post loc ch)) as [[] | e] eqn:Ho.
    + cbn [posts uploaded pending up_out up_printed].
      split_and!; auto. intros e0 He0. discriminate He0.
    + destruct (handled_upload e);
        cbn [posts uploaded pending up_out up_printed].
      * split_and!; auto; [intros e0 He0; discriminate He0 | ].
        intros _ Hno. exfalso. apply (Hno e).
        rewrite !elem_of_app. right. right. left.
      * split_and!; auto; intros; discriminate.
  - destruct e; unfold upload_from;
      cbn [posts uploaded pending up_out up_printed];
      (split_and!;
       [reflexivity | exact Hempty | intros e0 [= <-]; auto | reflexivity]).
Qed.

End WithService.

Section NoFailure.

Variable walk : string -> list (string * list string * list string).
Variable join_abs : list string -> string.
Variable sizes : string -> N.
Variable ident : string -> string -> string -> string.

Abbreviation big := (Upload.big join_abs sizes).

Lemma upload_loop_all (channel_id : string) (todo : list (string * string)) :
  forall (file_ids : list string) (acc : upload_run),
    length file_ids < 5 ->
    let r := upload_loop join_abs (fun p => Py.Returned (sizes p))
                         (fun c f p => Py.Returned (ident c f p))
                         (fun _ _ => None) channel_id todo file_ids acc in
    up_out r = Py.Returned tt
    /\ uploaded r
       = uploaded acc
         ++ map (fun rf => ident channel_id (snd rf)
                                 (join_abs [fst rf; snd rf]))
                (filter (fun rf => big rf = false) todo)
    /\ up_printed r
       = up_printed acc
         ++ flat_map (fun rf => if big rf
                                then [Uploading (snd rf); TooBig (snd rf)]
                                else [Uploading (snd rf)]) todo
    /\ length (posts r)
       = length (posts acc)
         + (length file_ids
            + length (filter (fun rf => big rf = false) todo) + 4) / 5.
Proof.
  induction todo as [ | [root filename] rest IH]; intros file_ids acc Hlt;
    cbn [upload_loop]; cbv zeta.
  - rewrite filter_nil.
    destruct (Nat.ltb_spec 0 (length file_ids)) as [Hpos | Hzero];
      cbn [posts uploaded pending up_out up_printed map flat_map length].
    + rewrite !app_nil_r, length_app. cbn [length].
      split_and!; auto. f_equal. rewrite Nat.add_0_r.
      destruct (length file_ids) as [ | [ | [ | [ | [ | k]]]]];
        try lia; reflexivity.
    + rewrite !app_nil_r. split_and!; auto.
      assert (length file_ids = 0) as -> by lia. cbn. lia.
  - cbn [flat_map].
    destruct (big (root, filename)) eqn:Hbig;
      [rewrite filter_cons_False by (rewrite Hbig; discriminate)
      | rewrite filter_cons_True by exact Hbig];
      unfold Upload.big in Hbig; cbn [fst snd] in Hbig |- *; rewrite Hbig.
    + destruct (IH file_ids
                  (UploadRun (posts acc) (uploaded acc) file_ids
                     ((up_printed acc ++ [Uploading filename])
                      ++ [TooBig filename]) (Py.Returned tt)) Hlt)
        as (H1 & H2 & H3 & H4).
      cbv zeta in *. cbn [posts uploaded up_printed] in *.
      repeat split; auto.
      rewrite H3. now rewrite <- !app_assoc.
    + cbn [map length fst snd].
      destruct (Nat.leb_spec 5 (length (file_ids ++ [ident channel_id filename
                                           (join_abs [root; filename])])))
        as [Hfive | Hless]; rewrite length_app in *; cbn [length] in *.
      * destruct (IH []
                    (UploadRun
                       (posts acc ++ [file_ids ++ [ident channel_id filename
                                           (join_abs [root; filename])]])
                       (uploaded acc ++ [ident channel_id filename
                                           (join_abs [root; filename])]) []
                       (up_printed acc ++ [Uploading filename])
                       (Py.Returned tt))) as (H1 & H2 & H3 & H4);
          [cbn; lia | ].
        cbv zeta in *. cbn [posts uploaded up_printed] in *.
        repeat split; auto.
        -- rewrite H2. now rewrite <- app_assoc.
        -- rewrite H3. now rewrite <- app_assoc.
        -- rewrite H4, length_app. cbn [length].
           assert (length file_ids = 4) as -> by lia.
           set (m := length (filter (fun rf => big rf = false) rest)).
           replace (4 + S m + 4) with (1 * 5 + (m + 4)) by lia.
           rewrite Nat.div_add_l by lia. rewrite (Nat.add_0_l m). lia.
      * destruct (IH (file_ids ++ [ident channel_id filename
                                     (join_abs [root; filename])])
                    (UploadRun (posts acc)
                       (uploaded acc ++ [ident channel_id filename
                                           (join_abs [root; filename])])
                       (file_ids ++ [ident channel_id filename
                                       (join_abs [root; filename])])
                       (up_printed acc ++ [Uploading filename])
                       (Py.Returned tt))) as (H1 & H2 & H3 & H4);
          [rewrite length_app; cbn; lia | ].
        cbv zeta in *. cbn [posts uploaded up_printed] in *.
        repeat split; auto.
        -- rewrite H2. now rewrite <- app_assoc.
        -- rewrite H3. now rewrite <- app_assoc.
        -- rewrite H4, length_app. cbn [length]. f_equal. f_equal. lia.
Qed.

(** X21: when the service answers every call, [_upload_files] returns
    after having uploaded, in the order of the walk, every file of at
    most 49 MiB and no other; a larger file is announced and then
    reported as too big. With [n] files uploaded it has created
    [(n + 4) / 5] posts, that is [n / 5] rounded up. *)
Theorem upload_files_all (file_location channel_id : string) :
  let todo := walk_files walk file_location in
  let r := _upload_files walk join_abs (fun p => Py.Returned (sizes p))
                         (fun c f p => Py.Returned (ident c f p))
                         (fun _ _ => None) file_location channel_id in
  up_out r = Py.Returned tt
  /\ uploaded r
     = map (fun rf => ident channel_id (snd rf) (join_abs [fst rf; snd rf]))
           (filter (fun rf => big rf = false) todo)
  /\ concat (posts r) = uploaded r
  /\ up_printed r
     = flat_map (fun rf => if big rf
                           then [Uploading (snd rf); TooBig (snd rf)]
                           else [Uploading (snd rf)]) todo
  /\ length (posts r) = (length (uploaded r) + 4) / 5.
Proof.
  cbv zeta. unfold _upload_files.
  destruct (upload_loop_all channel_id (walk_files walk file_location) []
              (UploadRun [] [] [] [] (Py.Returned tt)))
    as (H1 & H2 & H3 & H4); [cbn; lia | ].
  destruct (upload_files_batches walk join_abs
              (fun p => Py.Returned (sizes p))
              (fun c f p => Py.Returned (ident c f p))
              (fun _ _ => None) file_location channel_id)
    as (A1 & _ & _ & A4).
  cbv zeta in *. unfold _upload_files in *. cbn [posts uploaded up_printed] in *.
  cbn [app length] in *. repeat split; auto.
  - rewrite A1, (A4 H1). now rewrite app_nil_r.
  - rewrite H4, H2, length_map. reflexivity.
Qed.

End NoFailure.

End UploadFacts.

(** ** The input of the playbook *)

Section AnsibleFacts.
Import Store Exporter Ansible Samples.

Variable isfile : string -> bool.
Variable join_abs : list string -> string.
Variable json_dumps : header_row -> string.

(** X22: [Ansible.__init__] raises when the playbook location or the
    domain is missing or empty, and not otherwise. An [infile] that is
    given is kept only if it is not an existing file; with no [infile],
    or with one that exists, the input of the playbook is
    [aggregated/aggregated_hostnames.txt] under the output directory,
    the file an export with the hostname lists into that directory
    writes. *)
Theorem ansible_init_infile {A} (kw : kwargs A) :
  (Py.is_raised (__init__ isfile join_abs kw) = true <->
   Py.truthy (kw_ansible_file_location kw) = false
   \/ Py.truthy (kw_domain kw) = false)
  /\ (forall obj, __init__ isfile join_abs kw = Py.Returned obj ->
        (forall p, kw_infile kw = Some p -> isfile p = false ->
           infile obj = p)
        /\ ((kw_infile kw = None
             \/ exists p, kw_infile kw = Some p /\ isfile p = true) ->
            infile obj = hostnames_path join_abs (kw_output_dir kw)
            /\ forall pl self_domain dump_ips dump_headers d st,
                 is_Some
                   (files (dump_to_file join_abs json_dumps (fun _ => true)
                             pl self_domain (kw_output_dir kw) dump_ips true
                             dump_headers (Py.Returned d) st)
                    !! infile obj))).
Proof.
  unfold __init__. split.
  - destruct (Py.truthy (kw_ansible_file_location kw));
      destruct (Py.truthy (kw_domain kw)); cbn; split; auto;
      intros [H | H]; discriminate.
  - intros obj.
    destruct (Py.truthy (kw_ansible_file_location kw)); cbn [negb];
      [ | discriminate].
    destruct (Py.truthy (kw_domain kw)); cbn [negb]; [ | discriminate].
    intros [= <-]. cbn [infile]. split.
    + intros p -> Hp. now rewrite Hp.
    + intros Hdef.
      assert (Hin : match kw_infile kw with
                    | Some p =>
                        if isfile p
                        then join_abs [kw_output_dir kw; "aggregated";
                                       "aggregated_hostnames.txt"]
                        else p
                    | None =>
                        join_abs [kw_output_dir kw; "aggregated";
                                  "aggregated_hostnames.txt"]
                    end = hostnames_path join_abs (kw_output_dir kw)).
      { destruct Hdef as [-> | (p & -> & ->)]; reflexivity. }
      rewrite Hin. split; [reflexivity | ].
      intros pl self_domain dump_ips dump_headers d st. unfold dump_to_file.
      rewrite dump_body_run_steps.
      rewrite (run_steps_all_ok (fun _ => true)) by reflexivity.
      cbn [files]. apply written_lookup. right.
      exists (hostnames_text pl (Py.replace_dot self_domain) d).
      unfold export_steps. rewrite !elem_of_app. right. left. left.
Qed.

End AnsibleFacts.

Section AnsibleExamples.
Import Store Exporter Ansible Samples.

Lemma ansible_init_infile_witness :
  exists obj,
    __init__ (fun _ => false) join_slash kw_default = Py.Returned obj
    /\ infile obj = "out/aggregated/aggregated_hostnames.txt"
    /\ is_Some
         (files (dump_to_file join_slash json_stub (fun _ => true)
                   sqlite_plans "example.com" "out" false true false
                   (Py.Returned d_example) ∅)
          !! infile obj).
Proof.
  eexists. split; [reflexivity | ].
  destruct (ansible_init_infile (fun _ => false) join_slash json_stub
              kw_default) as [_ H].
  destruct (H _ eq_refl) as [_ Hdef].
  destruct (Hdef (or_introl eq_refl)) as [Hpath Hfile].
  split; [exact Hpath | ].
  exact (Hfile sqlite_plans "example.com" false false d_example ∅).
Defined.

End AnsibleExamples.
